(** * LFPS (Low-Frequency Periodic Signaling) receiver and transmitter

    A shallow embedding of [usb3_pipe/lfps.py]: the table of LFPS timings,
    the duration converter [ns_to_cycles], the Polling LFPS detector
    ([LFPSReceiver]) and the Polling LFPS generator ([LFPSTransmitter]).

    Python [float]s are IEEE 754 binary64 numbers; they are modelled with the
    executable specification [SpecFloat] at precision 53 and [emax] 1024.
    Python [int]s are [Z].  The gateware is synchronous: every register is a
    field of a state record, and one call of a [..._tick] function is one
    clock edge. *)

From Stdlib Require Import ZArith Bool List Lia.
From Stdlib Require Import Floats.SpecFloat.
Import ListNotations.

Local Open Scope Z_scope.

(* ------------------------------------------------------------------ *)
(** * Python values: exceptions, floats, [math.ceil] *)

Module Py.

(** The exceptions the module can raise while it is imported or while an
    object is constructed. *)
Inductive exn : Type :=
| AssertionError
| OverflowError
| ValueError
| ZeroDivisionError
| TypeError
| AttributeError.

Inductive result (A : Type) : Type :=
| Ok (a : A)
| Raise (e : exn).
Arguments Ok {A} a.
Arguments Raise {A} e.

Definition bind {A B : Type} (r : result A) (k : A -> result B) : result B :=
  match r with
  | Ok a => k a
  | Raise e => Raise e
  end.

Definition assert (b : bool) : result unit :=
  if b then Ok tt else Raise AssertionError.

(** ** binary64 *)

Definition prec : Z := 53.
Definition emax : Z := 1024.

Definition float : Type := spec_float.

Definition fmul : float -> float -> float := SFmul prec emax.
Definition fle (x y : float) : bool := SFleb x y.
Definition fge (x y : float) : bool := SFleb y x.

Definition is_zero (x : float) : bool :=
  match x with S754_zero _ => true | _ => false end.

Definition is_finite (x : float) : bool :=
  match x with
  | S754_zero _ | S754_finite _ _ _ => true
  | _ => false
  end.

(** The exponent of the last mantissa bit of a number of magnitude [2^z]
    (binary64: 53 bits, subnormals from [2^(-1074)]). *)
Definition fexp : Z -> Z := SpecFloat.fexp prec emax.

(** The values a Python [float] can take: the canonical binary64 numbers. *)
Definition valid (x : float) : bool := valid_binary prec emax x.

(** The sign bit ([true] for negative). *)
Definition sign (x : float) : bool :=
  match x with
  | S754_zero s | S754_finite s _ _ | S754_infinity s => s
  | S754_nan => false
  end.

(** [x / y] on floats: Python raises on a zero divisor instead of
    returning an infinity. *)
Definition fdiv (x y : float) : result float :=
  if is_zero y then Raise ZeroDivisionError else Ok (SFdiv prec emax x y).

(** The float nearest to an integer (exact below [2^53]). *)
Definition of_Z (n : Z) : float := binary_normalize prec emax n 0 false.

(** A decimal literal [m * 10^(-k)], rounded once to the nearest float as
    the Python parser does: for [|m| < 2^53] and [k <= 22] both operands
    of the division are exact, so the quotient is the correctly rounded
    literal. *)
Definition dec (m : Z) (k : Z) : float := SFdiv prec emax (of_Z m) (of_Z (10 ^ k)).

(** The integer value of the signed mantissa of a finite float. *)
Definition mant (s : bool) (m : positive) : Z := cond_Zopp s (Zpos m).

(** [math.ceil]: an [int]; [OverflowError] on an infinity, [ValueError] on
    a NaN. *)
Definition ceil (x : float) : result Z :=
  match x with
  | S754_nan => Raise ValueError
  | S754_infinity _ => Raise OverflowError
  | S754_zero _ => Ok 0
  | S754_finite s m e =>
      if 0 <=? e then Ok (mant s m * 2 ^ e)
      else Ok (- ((- mant s m) / 2 ^ (- e)))
  end.

(** [math.floor], which the specification's formula for the oscillator
  period uses. *)
Definition floor (x : float) : result Z :=
  match x with
  | S754_nan => Raise ValueError
  | S754_infinity _ => Raise OverflowError
  | S754_zero _ => Ok 0
  | S754_finite s m e =>
      if 0 <=? e then Ok (mant s m * 2 ^ e)
      else Ok (mant s m / 2 ^ (- e))
  end.

End Py.

Notation "x <- r ;; k" := (Py.bind r (fun x => k))
  (at level 61, r at next level, right associativity).

Import Py.

(* ------------------------------------------------------------------ *)
(** * Constants and helpers *)

(** [lfps_clk_freq_min = 1/100e-9], [lfps_clk_freq_max = 1/20e-9]: the
    quotients the two divisions return when the module is imported (neither
    divisor is zero, see [lfps_clk_freq_import]). *)
Definition lfps_clk_freq_min : float := SFdiv prec emax (of_Z 1) (dec 100 9).
Definition lfps_clk_freq_max : float := SFdiv prec emax (of_Z 1) (dec 20 9).

Record LFPSTiming : Type := {
  t_typ : option float;
  t_min : float;
  t_max : float;
  range : float * float
}.

(** [LFPSTiming.__init__]: the two assertions reject a missing bound. *)
Definition LFPSTiming_init (typ mn mx : option float) : result LFPSTiming :=
  match mn with
  | None => Raise AssertionError
  | Some lo =>
      match mx with
      | None => Raise AssertionError
      | Some hi =>
          Ok {| t_typ := typ; t_min := lo; t_max := hi; range := (lo, hi) |}
      end
  end.

(** A timing whose two bounds are given, as every entry of the table is. *)
Definition timing (typ : option float) (lo hi : float) : LFPSTiming :=
  {| t_typ := typ; t_min := lo; t_max := hi; range := (lo, hi) |}.

Record LFPS : Type := {
  burst : LFPSTiming;
  repeat : option LFPSTiming;
  cycles : option Z
}.

(** [LFPS.__init__]: the [cycles] argument is not stored. *)
Definition LFPS_init (b : LFPSTiming) (r : option LFPSTiming) (c : option Z) : LFPS :=
  {| burst := b; repeat := r; cycles := None |}.

(** The two assertions of [LFPSTransmitter.__init__] on the LFPS clock
    frequency. *)
Definition in_range (lfps_clk_freq : float) : bool :=
  fge lfps_clk_freq lfps_clk_freq_min && fle lfps_clk_freq lfps_clk_freq_max.

(** [ns_to_cycles(clk_freq, t) = ceil(t*clk_freq)]. *)
Definition ns_to_cycles (clk_freq t : float) : result Z :=
  ceil (fmul t clk_freq).

(* ------------------------------------------------------------------ *)
(** * LFPS definitions *)

Definition PollingLFPSBurst  : LFPSTiming := timing (Some (dec 10 7)) (dec 6 7) (dec 14 7).
Definition PollingLFPSRepeat : LFPSTiming := timing (Some (dec 100 7)) (dec 60 7) (dec 140 7).
Definition PollingLFPS       : LFPS := LFPS_init PollingLFPSBurst (Some PollingLFPSRepeat) None.

Definition PingLFPSBurst     : LFPSTiming := timing None (dec 400 10) (dec 2000 10).
Definition PingLFPSRepeat    : LFPSTiming := timing (Some (dec 2000 4)) (dec 1600 4) (dec 2400 4).
Definition PingLFPS          : LFPS := LFPS_init PingLFPSBurst (Some PingLFPSRepeat) (Some 2).

Definition ResetLFPSBurst    : LFPSTiming := timing (Some (dec 1000 4)) (dec 800 4) (dec 1200 4).
Definition ResetLFPS         : LFPS := LFPS_init ResetLFPSBurst None None.

Definition U1ExitLFPSBurst   : LFPSTiming := timing None (dec 3000 10) (dec 9000 10).
Definition U1ExitLFPS        : LFPS := LFPS_init U1ExitLFPSBurst None None.

Definition U2LFPSBurst       : LFPSTiming := timing None (dec 800 4) (dec 20 4).
Definition U2LFPS            : LFPS := LFPS_init U2LFPSBurst None None.

Definition LoopbackExitLFPS  : LFPS := U2LFPS.

Definition U3WakeupLFPSBurst : LFPSTiming := timing None (dec 800 4) (dec 100 4).
Definition U3WakeupLFPS      : LFPS := LFPS_init U3WakeupLFPSBurst None None.

(** [lfps.repeat.t_typ] and [lfps.burst.t_typ] as the constructors read
    them: a missing [repeat] has no attribute [t_typ], and a missing typical
    value cannot be multiplied. *)
Definition burst_t_typ (l : LFPS) : result float :=
  match t_typ (burst l) with
  | Some t => Ok t
  | None => Raise TypeError
  end.

Definition repeat_t_typ (l : LFPS) : result float :=
  match repeat l with
  | None => Raise AttributeError
  | Some r =>
      match t_typ r with
      | Some t => Ok t
      | None => Raise TypeError
      end
  end.

(* ------------------------------------------------------------------ *)
(** * The migen primitives the two modules instantiate

    [Signal], [MultiReg], [WaitTimer] and [FSM] come from the migen library
    ([migen.fhdl.structure], [migen.genlib.cdc], [migen.genlib.misc],
    [migen.genlib.fsm]); they are modelled by what they elaborate to. *)

Module Migen.

(** Python's [int.bit_length]. *)
Definition bit_length (n : Z) : Z :=
  if n =? 0 then 0 else Z.log2 (Z.abs n) + 1.

(** [log2_int(n, need_pow2=False)]. *)
Definition log2_int (n : Z) : Z :=
  if n =? 0 then 0 else bit_length (n - 1).

(** [bits_for(n, require_sign_bit)]. *)
Definition bits_for (n : Z) (require_sign_bit : bool) : Z :=
  if 0 <? n then
    let r := log2_int (n + 1) in
    if require_sign_bit then r + 1 else r
  else log2_int (- n) + 1.

(** [Signal(max=n)]: the bounds become [0 .. n-1], the constructor asserts
    [0 < n-1], and the width is what the upper bound needs.  The result
    is the width of the (unsigned) signal. *)
Definition Signal_max (n : Z) : result Z :=
  let hi := n - 1 in
  _ <- assert (0 <? hi) ;;
  Ok (Z.max (bits_for 0 false) (bits_for hi false)).

(** An assignment to an unsigned signal of [w] bits keeps the low [w]
    bits of the value. *)
Definition trunc (w : Z) (v : Z) : Z := v mod 2 ^ w.

(** [MultiReg(i, o)] with its default depth 2 and reset value 0: two
    registers in a chain, the output is the second. *)
Record MultiReg : Type := { regs0 : bool; regs1 : bool }.

Definition MultiReg_reset : MultiReg := {| regs0 := false; regs1 := false |}.
Definition MultiReg_o (m : MultiReg) : bool := regs1 m.
Definition MultiReg_tick (i : bool) (m : MultiReg) : MultiReg :=
  {| regs0 := i; regs1 := regs0 m |}.

(** [WaitTimer(t)]: a counter [count = Signal(bits_for(t), reset=t)],
    [done = (count == 0)], and on each clock edge
    [If(wait, If(~done, count.eq(count - 1))).Else(count.eq(count.reset))]. *)
Record WaitTimer : Type := { wt_t : Z; wt_bits : Z }.

Definition WaitTimer_init (t : Z) : WaitTimer :=
  {| wt_t := t; wt_bits := bits_for t false |}.

Definition wt_reset (w : WaitTimer) : Z := trunc (wt_bits w) (wt_t w).

Definition wt_done (count : Z) : bool := count =? 0.

Definition wt_tick (w : WaitTimer) (wait : bool) (count : Z) : Z :=
  if wait then
    if negb (wt_done count) then trunc (wt_bits w) (count - 1) else count
  else wt_reset w.

End Migen.

Import Migen.

(* ------------------------------------------------------------------ *)
(** * LFPS receiver *)

Module LFPSReceiver.

(** What [__init__] computes once: the two tick counts and the width of
    [count = Signal(max=max(burst_cycles, repeat_cycles))]. *)
Record t : Type := {
  burst_cycles : Z;
  repeat_cycles : Z;
  count_bits : Z
}.

Definition init (sys_clk_freq : float) : result t :=
  tb <- burst_t_typ PollingLFPS ;;
  b <- ns_to_cycles sys_clk_freq tb ;;
  tr <- repeat_t_typ PollingLFPS ;;
  r <- ns_to_cycles sys_clk_freq tr ;;
  w <- Signal_max (Z.max b r) ;;
  Ok {| burst_cycles := b; repeat_cycles := r; count_bits := w |}.

(** The receiver built directly from its two tick counts (what [init]
    does after the two conversions). *)
Definition of_cycles (b r : Z) : result t :=
  w <- Signal_max (Z.max b r) ;;
  Ok {| burst_cycles := b; repeat_cycles := r; count_bits := w |}.

Inductive fsm_state : Type := TBURST | TREPEAT.

(** The registers of the detector: the FSM state, [count] and [found]. *)
Record regs : Type := {
  state : fsm_state;
  count : Z;
  found : bool
}.

(** After reset: [reset_state="TBURST"], every signal at 0. *)
Definition reset : regs := {| state := TBURST; count := 0; found := false |}.

Section Fsm.
Variable p : t.

(** The combinatorial output [polling], from the registers and the
    resynchronised [idle]. *)
Definition polling (s : regs) (idle : bool) : bool :=
  match state s with
  | TBURST => found s && negb idle
  | TREPEAT => false
  end.

(** One clock edge: the [NextValue]s and [NextState]s of the active
    state; of two [NextValue]s on one signal the later one wins. *)
Definition tick (s : regs) (idle : bool) : regs :=
  match state s with
  | TBURST =>
      let '(st', count') :=
        if count s =? 0 then
          if negb idle then (TBURST, trunc (count_bits p) (burst_cycles p - 1))
          else (TREPEAT, trunc (count_bits p) (repeat_cycles p - burst_cycles p - 1))
        else (TBURST, trunc (count_bits p) (count s - 1)) in
      let found' := if found s && negb idle then false else found s in
      {| state := st'; count := count'; found := found' |}
  | TREPEAT =>
      if (count s =? 0) || negb idle then
        {| state := TBURST;
           count := trunc (count_bits p) (burst_cycles p - 1);
           found := (count s =? 0) |}
      else
        {| state := TREPEAT;
           count := trunc (count_bits p) (count s - 1);
           found := found s |}
  end.

(** The detector over a list of resynchronised samples: the [polling]
    value of every tick and the registers after the last one. *)
Fixpoint run (s : regs) (idles : list bool) : list bool * regs :=
  match idles with
  | [] => ([], s)
  | i :: rest =>
      let '(out, s') := run (tick s i) rest in
      (polling s i :: out, s')
  end.

End Fsm.

End LFPSReceiver.

(* ------------------------------------------------------------------ *)
(** * LFPS transmitter *)

Module LFPSTransmitter.

(** What [__init__] builds: the three timers. *)
Record t : Type := {
  clk_timer : WaitTimer;
  burst_timer : WaitTimer;
  repeat_timer : WaitTimer
}.

Definition init (sys_clk_freq lfps_clk_freq : float) : result t :=
  _ <- assert (fge lfps_clk_freq lfps_clk_freq_min) ;;
  _ <- assert (fle lfps_clk_freq lfps_clk_freq_max) ;;
  q <- fdiv sys_clk_freq (fmul (of_Z 2) lfps_clk_freq) ;;
  n <- ceil q ;;
  tb <- burst_t_typ PollingLFPS ;;
  b <- ns_to_cycles sys_clk_freq tb ;;
  tr <- repeat_t_typ PollingLFPS ;;
  r <- ns_to_cycles sys_clk_freq tr ;;
  Ok {| clk_timer := WaitTimer_init (n - 1);
        burst_timer := WaitTimer_init b;
        repeat_timer := WaitTimer_init r |}.

(** The registers: the oscillator bit and the three timer counters. *)
Record regs : Type := {
  clk : bool;
  clk_count : Z;
  burst_count : Z;
  repeat_count : Z
}.

Section Gen.
Variable p : t.

Definition reset : regs :=
  {| clk := false;
     clk_count := wt_reset (clk_timer p);
     burst_count := wt_reset (burst_timer p);
     repeat_count := wt_reset (repeat_timer p) |}.

(** The outputs: [idle = burst_timer.done],
    [pattern = Replicate(clk, 40)]. *)
Definition idle (s : regs) : bool := wt_done (burst_count s).
Definition pattern (s : regs) : Z := if clk s then 2 ^ 40 - 1 else 0.

(** One clock edge. *)
Definition tick (s : regs) : regs :=
  let clk_done := wt_done (clk_count s) in
  let repeat_done := wt_done (repeat_count s) in
  {| clk := if clk_done then negb (clk s) else clk s;
     clk_count := wt_tick (clk_timer p) (negb clk_done) (clk_count s);
     burst_count := wt_tick (burst_timer p) (negb repeat_done) (burst_count s);
     repeat_count := wt_tick (repeat_timer p) (negb repeat_done) (repeat_count s) |}.

(** The registers [n] clock edges after reset. *)
Fixpoint at_tick (n : nat) : regs :=
  match n with
  | O => reset
  | S n' => tick (at_tick n')
  end.

End Gen.

End LFPSTransmitter.

(* ------------------------------------------------------------------ *)
(** * Test inputs and observations *)

(** One Polling period as the detector sees it: [idle] low for
    [burst_ticks] ticks, then high for [repeat_ticks - burst_ticks]. *)
Definition cycle (b r : Z) : list bool :=
  List.repeat false (Z.to_nat b) ++ List.repeat true (Z.to_nat (r - b)).

Definition cadence (b r : Z) (k : nat) : list bool :=
  concat (List.repeat (cycle b r) k).

(** The number of ticks on which an output is asserted. *)
Definition pulses (out : list bool) : nat := count_occ bool_dec out true.

(** The output the detector gives on a period that follows a well-timed
    one: a single pulse, on the second tick. *)
Definition armed_cycle_out (r : Z) : list bool :=
  false :: true :: List.repeat false (Z.to_nat (r - 2)).

(** The register values the detector can reach from reset. *)
Inductive reachable (p : LFPSReceiver.t) : LFPSReceiver.regs -> Prop :=
| reachable_reset : reachable p LFPSReceiver.reset
| reachable_tick s idle :
    reachable p s -> reachable p (LFPSReceiver.tick p s idle).

(** The range each phase of the detector keeps [count] in. *)
Definition count_inv (b r : Z) (s : LFPSReceiver.regs) : Prop :=
  match LFPSReceiver.state s with
  | LFPSReceiver.TBURST => 0 <= LFPSReceiver.count s <= b - 1
  | LFPSReceiver.TREPEAT => 0 <= LFPSReceiver.count s <= r - b - 1
  end.

(** The detector property as the specification words it: [k] periods of
    the cadence give exactly [k] pulses, each on a burst-start tick (a tick
    whose index is a multiple of [repeat_ticks]). *)
Definition k_pulses_on_burst_starts
    (p : LFPSReceiver.t) (b r : Z) (k : nat) : Prop :=
  let out := fst (LFPSReceiver.run p LFPSReceiver.reset (cadence b r k)) in
  pulses out = k /\
  forall n, nth n out false = true -> Z.of_nat n mod r = 0.

(** The receiver for a 125 MHz clock (see [init_125MHz]). *)
Definition rx_125MHz : LFPSReceiver.t :=
  {| LFPSReceiver.burst_cycles := 125;
     LFPSReceiver.repeat_cycles := 1250;
     LFPSReceiver.count_bits := 11 |}.

(** The oscillator bit changes value every [N] ticks, starting low. *)
Definition flips_every (p : LFPSTransmitter.t) (N : Z) : Prop :=
  forall n, LFPSTransmitter.clk (LFPSTransmitter.at_tick p n) = Z.odd (Z.of_nat n / N).

(** The generator's [idle] in a period of [T] ticks: low on the first [b],
    high on the rest. *)
Definition idle_pattern (p : LFPSTransmitter.t) (b T : Z) : Prop :=
  forall n,
    LFPSTransmitter.idle (LFPSTransmitter.at_tick p n) = (b <=? Z.of_nat n mod T).

(** The transmitter for a 125 MHz clock and a 25 MHz LFPS clock (see
    [tx_init_125MHz]). *)
Definition tx_125MHz : LFPSTransmitter.t :=
  {| LFPSTransmitter.clk_timer := WaitTimer_init 2;
     LFPSTransmitter.burst_timer := WaitTimer_init 125;
     LFPSTransmitter.repeat_timer := WaitTimer_init 1250 |}.

(** For comparison only: the same transmitter with its repeat timer loaded
    with [repeat_cycles - 1], the way [clk_timer] is loaded with its period
    minus one. *)
Definition tx_125MHz_exact : LFPSTransmitter.t :=
  {| LFPSTransmitter.clk_timer := WaitTimer_init 2;
     LFPSTransmitter.burst_timer := WaitTimer_init 125;
     LFPSTransmitter.repeat_timer := WaitTimer_init 1249 |}.

(** ** A generator wired to a detector

    The generator's [idle] output drives the detector's raw [idle] input;
    both run on the same clock. *)
Record link_regs : Type := {
  link_tx : LFPSTransmitter.regs;
  link_sync : MultiReg;
  link_rx : LFPSReceiver.regs
}.

Definition link_reset (pt : LFPSTransmitter.t) : link_regs :=
  {| link_tx := LFPSTransmitter.reset pt;
     link_sync := MultiReg_reset;
     link_rx := LFPSReceiver.reset |}.

Definition link_polling (s : link_regs) : bool :=
  LFPSReceiver.polling (link_rx s) (MultiReg_o (link_sync s)).

Definition link_tick (pt : LFPSTransmitter.t) (pr : LFPSReceiver.t)
    (s : link_regs) : link_regs :=
  {| link_tx := LFPSTransmitter.tick pt (link_tx s);
     link_sync := MultiReg_tick (LFPSTransmitter.idle (link_tx s)) (link_sync s);
     link_rx := LFPSReceiver.tick pr (link_rx s) (MultiReg_o (link_sync s)) |}.

(** The [polling] output of the first [n] ticks. *)
Fixpoint link_run (pt : LFPSTransmitter.t) (pr : LFPSReceiver.t)
    (n : nat) (s : link_regs) : list bool :=
  match n with
  | O => []
  | S n' => link_polling s :: link_run pt pr n' (link_tick pt pr s)
  end.

(** The ticks on which an output is asserted. *)
Fixpoint pulse_ticks (i : Z) (out : list bool) : list Z :=
  match out with
  | [] => []
  | x :: rest => (if x then [i] else []) ++ pulse_ticks (i + 1) rest
  end.

(** The claim of the specification on tick rates: a zero or negative tick
    rate is rejected by both constructors. *)
Definition rejects_nonpositive_tick_rate : Prop :=
  forall sys_clk_freq lfps_clk_freq,
    valid sys_clk_freq = true -> is_finite sys_clk_freq = true ->
    fle sys_clk_freq (of_Z 0) = true ->
    LFPSReceiver.init sys_clk_freq = Raise AssertionError /\
    LFPSTransmitter.init sys_clk_freq lfps_clk_freq = Raise AssertionError.

(* ------------------------------------------------------------------ *)
(** * The receiver from its raw pin, and the table as a whole *)

(** The [polling] outputs of the whole receiver: the raw [idle] pin goes
    through the synchroniser ([MultiReg(self.idle, idle)]) and the detector
    reads the synchroniser's output. *)
Fixpoint run_raw (p : LFPSReceiver.t) (m : MultiReg) (s : LFPSReceiver.regs)
    (raws : list bool) : list bool :=
  match raws with
  | [] => []
  | x :: rest =>
      LFPSReceiver.polling s (MultiReg_o m)
      :: run_raw p (MultiReg_tick x m) (LFPSReceiver.tick p s (MultiReg_o m)) rest
  end.

(** What the synchroniser hands to the detector while [raws] arrives: its
    two registers first, then the raw samples, two ticks late. *)
Definition resync (m : MultiReg) (raws : list bool) : list bool :=
  firstn (length raws) (regs1 m :: regs0 m :: raws).

(** The module's LFPS definitions, in source order. *)
Definition lfps_table : list LFPS :=
  [PollingLFPS; PingLFPS; ResetLFPS; U1ExitLFPS; U2LFPS; LoopbackExitLFPS;
   U3WakeupLFPS].

(** [t_min <= t_typ <= t_max] for a timing that has a typical value. *)
Definition typ_in_range (t : LFPSTiming) : bool :=
  match t_typ t with
  | Some x => fle (t_min t) x && fle x (t_max t)
  | None => true
  end.

(** The timings of a definition: its burst and, when present, its repeat. *)
Definition timings (l : LFPS) : list LFPSTiming :=
  burst l :: match repeat l with Some r => [r] | None => [] end.

(** [t_min <= t_max] for a timing. *)
Definition ordered (t : LFPSTiming) : bool := fle (t_min t) (t_max t).

(** The durations a timing holds, and those of the whole table. *)
Definition durations (t : LFPSTiming) : list float :=
  match t_typ t with Some x => [x] | None => [] end ++ [t_min t; t_max t].

Definition table_durations : list float :=
  flat_map (fun l => flat_map durations (timings l)) lfps_table.

(** A positive duration below half a second: a float [mc * 2^ec] with
    [digits mc + ec <= -1]. *)
Definition small_positive (t : float) : bool :=
  match t with
  | S754_finite false mc ec => (Zdigits2 (Zpos mc) + ec <=? -1) && (ec <=? 0)
  | _ => false
  end.

(* ------------------------------------------------------------------ *)
(** * Observations on pulses and on the wired generator *)

(** A lower bound on the number of ticks before [polling] can be asserted:
    none when [found] is latched in the Burst phase; otherwise the rest of
    the running count, and from the Burst phase a whole gap after it. *)
Definition ticks_to_pulse (b r : Z) (s : LFPSReceiver.regs) : Z :=
  match LFPSReceiver.state s with
  | LFPSReceiver.TBURST =>
      if LFPSReceiver.found s then 0 else LFPSReceiver.count s + (r - b + 1)
  | LFPSReceiver.TREPEAT => LFPSReceiver.count s + 1
  end.

(** The generator's [idle] output on [n] successive ticks, from the
    registers [s]. *)
Fixpoint idles_from (pt : LFPSTransmitter.t) (s : LFPSTransmitter.regs) (n : nat)
    : list bool :=
  match n with
  | O => []
  | S n' => LFPSTransmitter.idle s :: idles_from pt (LFPSTransmitter.tick pt s) n'
  end.

(** The detector's output over two rounds of the generator once it has
    locked: a pulse on the first tick, nothing on the [2 * r + 1] others. *)
Definition locked_rounds_out (r : Z) : list bool :=
  true :: List.repeat false (Z.to_nat (2 * r + 1)).

(* ------------------------------------------------------------------ *)
(** * Results of constructors *)

Lemma bind_ok {A B : Type} (r : result A) (k : A -> result B) (b : B) :
  Py.bind r k = Ok b -> exists a, r = Ok a /\ k a = Ok b.
Proof.
  destruct r as [a|e]; simpl; [|discriminate]. intros H. now exists a.
Qed.

Lemma Ok_inj {A : Type} (a b : A) : Ok a = Ok b -> a = b.
Proof. intros H. now inversion H. Qed.

Lemma assert_ok (c : bool) : assert c = Ok tt -> c = true.
Proof. destruct c; [reflexivity|discriminate]. Qed.

(* ------------------------------------------------------------------ *)
(** * Widths: every value a counter is loaded with fits its signal *)

Section Widths.

Lemma bit_length_bound (n : Z) : 0 <= n -> n < 2 ^ bit_length n.
Proof.
  intros Hn. unfold bit_length.
  destruct (Z.eqb_spec n 0) as [->|Hz]; [reflexivity|].
  rewrite Z.abs_eq by lia.
  replace (Z.log2 n + 1) with (Z.succ (Z.log2 n)) by lia.
  apply Z.log2_spec. lia.
Qed.

Lemma bits_for_bound (n : Z) : 0 <= n -> n < 2 ^ bits_for n false.
Proof.
  intros Hn. unfold bits_for.
  destruct (Z.ltb_spec 0 n) as [Hp|Hp].
  - unfold log2_int.
    destruct (Z.eqb_spec (n + 1) 0) as [E|_]; [lia|].
    replace (n + 1 - 1) with n by lia. now apply bit_length_bound.
  - assert (n = 0) as -> by lia. reflexivity.
Qed.

Lemma bits_for_nonneg (n : Z) : 0 <= bits_for n false.
Proof.
  unfold bits_for, log2_int, bit_length.
  repeat match goal with |- context [if ?c then _ else _] => destruct c end;
    try lia;
    match goal with |- context [Z.log2 ?x] => pose proof (Z.log2_nonneg x) end; lia.
Qed.

Lemma Signal_max_bound (n w : Z) :
  Signal_max n = Ok w -> 2 <= n /\ n <= 2 ^ w /\ 0 <= w.
Proof.
  unfold Signal_max, assert. simpl.
  destruct (Z.ltb_spec 0 (n - 1)) as [Hn|Hn]; simpl; [|discriminate].
  intros [= <-].
  pose proof (bits_for_bound (n - 1) ltac:(lia)) as Hb.
  pose proof (bits_for_nonneg (n - 1)) as Hw.
  pose proof (bits_for_nonneg 0) as Hw0.
  split; [lia|]. split; [|lia].
  assert (2 ^ bits_for (n - 1) false
          <= 2 ^ Z.max (bits_for 0 false) (bits_for (n - 1) false)).
  { apply Z.pow_le_mono_r; lia. }
  lia.
Qed.

Lemma trunc_small (w v : Z) : 0 <= v < 2 ^ w -> trunc w v = v.
Proof. intros H. unfold trunc. now apply Z.mod_small. Qed.

Lemma wt_reset_nonneg (t : Z) : 0 <= t -> wt_reset (WaitTimer_init t) = t.
Proof.
  intros Ht. unfold wt_reset, WaitTimer_init. simpl.
  apply trunc_small. split; [lia|]. now apply bits_for_bound.
Qed.

Lemma wt_tick_nonneg (t c : Z) (wait : bool) :
  0 <= c <= t ->
  wt_tick (WaitTimer_init t) wait c =
    if wait then (if c =? 0 then c else c - 1) else t.
Proof.
  intros Hc. unfold wt_tick, wt_done.
  destruct wait; [|apply wt_reset_nonneg; lia].
  destruct (Z.eqb_spec c 0) as [E|E]; simpl; [reflexivity|].
  unfold WaitTimer_init; simpl. apply trunc_small.
  pose proof (bits_for_bound t ltac:(lia)). lia.
Qed.

End Widths.

(* ------------------------------------------------------------------ *)
(** * Binary64 rounding: the products and quotients of the constructors
      stay finite *)

Lemma Zdigits2_log2 (m : Z) : 0 < m -> Zdigits2 m = Z.log2 m + 1.
Proof.
  destruct m as [|p|p]; try lia. intros _. simpl.
  induction p as [p IH|p IH|]; simpl; try reflexivity.
  - rewrite Pos2Z.inj_succ, IH. destruct p; simpl; lia.
  - rewrite Pos2Z.inj_succ, IH. destruct p; simpl; lia.
Qed.

Lemma shr_1_m (mrs : shr_record) :
  0 <= shr_m mrs -> shr_m (shr_1 mrs) = shr_m mrs / 2.
Proof.
  destruct mrs as [m r s]. simpl. intros Hm.
  destruct m as [|p|p]; [reflexivity| |lia].
  rewrite <- Z.div2_div. destruct p; reflexivity.
Qed.

Lemma iter_shr_m (p : positive) (mrs : shr_record) :
  0 <= shr_m mrs ->
  shr_m (iter_pos shr_1 p mrs) = shr_m mrs / 2 ^ Zpos p.
Proof.
  revert mrs. induction p as [p IH|p IH|]; intros mrs Hm.
  - cbn [iter_pos].
    assert (0 <= shr_m (shr_1 mrs)) as H1.
    { rewrite shr_1_m by exact Hm. apply Z.div_pos; lia. }
    assert (0 <= shr_m (iter_pos shr_1 p (shr_1 mrs))) as H2.
    { rewrite IH by exact H1. apply Z.div_pos; lia. }
    rewrite IH, IH, shr_1_m by assumption.
    rewrite !Z.div_div by lia. f_equal.
    replace (Zpos p~1) with (1 + Zpos p + Zpos p) by lia.
    rewrite !Z.pow_add_r by lia. change (2 ^ 1) with 2. ring.
  - cbn [iter_pos].
    assert (0 <= shr_m (iter_pos shr_1 p mrs)) as H2.
    { rewrite IH by exact Hm. apply Z.div_pos; lia. }
    rewrite IH, IH by assumption.
    rewrite Z.div_div by lia. f_equal.
    replace (Zpos p~0) with (Zpos p + Zpos p) by lia.
    rewrite !Z.pow_add_r by lia. ring.
  - cbn [iter_pos]. now rewrite shr_1_m.
Qed.

Section RoundAux.

Lemma fexp_eq (z : Z) : fexp z = Z.max (z - 53) (-1074).
Proof. reflexivity. Qed.

(** What [shr_fexp] does to a non-negative mantissa. *)
Lemma shr_fexp_m (m e : Z) (l : location) :
  0 <= m ->
  let k := Z.max 0 (fexp (Zdigits2 m + e) - e) in
  shr_m (fst (shr_fexp prec emax m e l)) = m / 2 ^ k /\
  snd (shr_fexp prec emax m e l) = e + k.
Proof.
  intros Hm k. unfold shr_fexp, shr. fold fexp.
  assert (shr_m (shr_record_of_loc m l) = m) as Hl
    by (destruct l as [|[]]; reflexivity).
  subst k. destruct (fexp (Zdigits2 m + e) - e) as [|p|p] eqn:E; cbn [fst snd].
  - rewrite Hl, Z.max_l by lia. rewrite Z.div_1_r. lia.
  - rewrite iter_shr_m by lia. rewrite Hl, Z.max_r by lia. lia.
  - rewrite Hl, Z.max_l by lia. rewrite Z.div_1_r. lia.
Qed.

Lemma round_nearest_even_bounds (m : Z) (l : location) :
  m <= round_nearest_even m l <= m + 1.
Proof.
  destruct l as [|[]]; simpl; try lia. destruct (Z.even m); lia.
Qed.

Lemma Zdigits2_nonneg (m : Z) : 0 <= Zdigits2 m.
Proof. destruct m; simpl; lia. Qed.

Lemma Zdigits2_le (a c : Z) : 0 <= a <= c -> Zdigits2 a <= Zdigits2 c.
Proof.
  intros H. destruct (Z.eq_dec a 0) as [->|Ha].
  - apply Zdigits2_nonneg.
  - rewrite !Zdigits2_log2 by lia.
    pose proof (Z.log2_le_mono a c ltac:(lia)). lia.
Qed.

Lemma Zdigits2_succ (a : Z) : 0 <= a -> Zdigits2 (a + 1) <= Zdigits2 a + 1.
Proof.
  intros H. destruct (Z.eq_dec a 0) as [->|Ha]; [simpl; lia|].
  rewrite !Zdigits2_log2 by lia.
  pose proof (Z.log2_succ_le a). unfold Z.succ in *. lia.
Qed.

Lemma Zdigits2_shiftr (a k : Z) :
  0 <= a -> 0 <= k -> Zdigits2 (a / 2 ^ k) = Z.max 0 (Zdigits2 a - k).
Proof.
  intros Ha Hk. destruct (Z.eq_dec a 0) as [->|Hz].
  - rewrite Z.div_0_l by (apply Z.pow_nonzero; lia). simpl. lia.
  - rewrite <- Z.shiftr_div_pow2 by lia.
    pose proof (Z.log2_shiftr a k ltac:(lia)) as L.
    pose proof (Z.shiftr_nonneg a k) as N.
    destruct (Z.eq_dec (Z.shiftr a k) 0) as [E|E].
    + rewrite E. simpl.
      apply Z.shiftr_eq_0_iff in E. destruct E as [E|[_ E]]; [lia|].
      rewrite Zdigits2_log2 by lia. lia.
    + rewrite !Zdigits2_log2 by lia. rewrite L.
      assert (k <= Z.log2 a).
      { destruct (Z.le_gt_cases k (Z.log2 a)); [assumption|].
        exfalso. apply E. apply Z.shiftr_eq_0; lia. }
      lia.
Qed.

Lemma Zdigits2_lt_pow2 (a n : Z) : 0 <= a -> 0 <= n -> Zdigits2 a <= n -> a < 2 ^ n.
Proof.
  intros Ha Hn H. destruct (Z.eq_dec a 0) as [->|Hz].
  - apply Z.pow_pos_nonneg; lia.
  - rewrite Zdigits2_log2 in H by lia. apply Z.log2_lt_pow2; lia.
Qed.

Lemma Zdigits2_ge_pow2 (a n : Z) : 0 < a -> n <= Zdigits2 a -> 2 ^ (n - 1) <= a.
Proof.
  intros Ha H. rewrite Zdigits2_log2 in H by lia.
  destruct (Z.le_gt_cases 0 (n - 1)) as [Hn|Hn].
  - apply Z.log2_le_pow2; lia.
  - rewrite Z.pow_neg_r by lia. lia.
Qed.

(** Rounding a non-negative mantissa that is not too large gives a zero or
    a finite number of the same sign: no overflow.  The result is below
    the next power of two above the exact value (or below [2^(-1073)]). *)
Lemma binary_round_aux_finite (sx : bool) (mx ex : Z) (lx : location) :
  0 <= mx -> ex <= 971 -> Zdigits2 mx + ex <= 1023 ->
  match binary_round_aux prec emax sx mx ex lx with
  | S754_zero s => s = sx
  | S754_finite s m e =>
      s = sx /\
      (0 < mx -> Zdigits2 (Zpos m) + e <= Z.max (Zdigits2 mx + ex + 1) (-1073))
  | _ => False
  end.
Proof.
  intros Hm He Hd. unfold binary_round_aux.
  destruct (shr_fexp_m mx ex lx Hm) as [M1 E1].
  destruct (shr_fexp prec emax mx ex lx) as [mrs1 e1]. cbn [fst snd] in M1, E1.
  set (m1 := round_nearest_even (shr_m mrs1) (loc_of_shr_record mrs1)).
  assert (0 <= shr_m mrs1) as H0 by (rewrite M1; apply Z.div_pos; lia).
  pose proof (round_nearest_even_bounds (shr_m mrs1) (loc_of_shr_record mrs1)) as R.
  fold m1 in R.
  destruct (shr_fexp_m m1 e1 loc_Exact ltac:(lia)) as [M2 E2].
  destruct (shr_fexp prec emax m1 e1 loc_Exact) as [mrs2 e2]. cbn [fst snd] in M2, E2.
  assert (0 <= shr_m mrs2) as H2 by (rewrite M2; apply Z.div_pos; lia).
  pose proof (Zdigits2_le m1 (shr_m mrs1 + 1) ltac:(lia)) as D1.
  pose proof (Zdigits2_succ (shr_m mrs1) H0) as D2.
  pose proof (Zdigits2_shiftr mx (Z.max 0 (fexp (Zdigits2 mx + ex) - ex)) Hm ltac:(lia)) as D3.
  rewrite <- M1 in D3.
  pose proof (Zdigits2_shiftr m1 (Z.max 0 (fexp (Zdigits2 m1 + e1) - e1)) ltac:(lia) ltac:(lia)) as D4.
  rewrite <- M2 in D4.
  pose proof (Zdigits2_nonneg mx) as Dn.
  destruct (shr_m mrs2) as [|m|m]; [reflexivity| |lia].
  assert (e2 <= 971) as Hle by (rewrite !fexp_eq in *; lia).
  unfold emax, prec. change (1024 - 53) with 971.
  destruct (Z.leb_spec e2 971); [|lia].
  split; [reflexivity|]. intros Hpos.
  assert (1 <= Zdigits2 mx) by (rewrite Zdigits2_log2 by lia; pose proof (Z.log2_nonneg mx); lia).
  assert (1 <= Zdigits2 (Z.pos m)) by (simpl; lia).
  rewrite !fexp_eq in *. lia.
Qed.

(** In the normal range the result has a full mantissa and keeps the
    magnitude. *)
Lemma binary_round_aux_normal (sx : bool) (mx ex : Z) (lx : location) :
  53 <= Zdigits2 mx -> -1021 <= Zdigits2 mx + ex <= 1023 -> 0 <= mx ->
  exists m e,
    binary_round_aux prec emax sx mx ex lx = S754_finite sx m e /\
    Zdigits2 (Zpos m) = 53 /\
    Zdigits2 mx + ex <= 53 + e <= Zdigits2 mx + ex + 1 /\
    (53 + e = Zdigits2 mx + ex + 1 -> Zpos m = 2 ^ 52).
Proof.
  intros Hd Hr Hm. unfold binary_round_aux.
  destruct (shr_fexp_m mx ex lx Hm) as [M1 E1].
  destruct (shr_fexp prec emax mx ex lx) as [mrs1 e1]. cbn [fst snd] in M1, E1.
  set (m1 := round_nearest_even (shr_m mrs1) (loc_of_shr_record mrs1)).
  assert (0 <= shr_m mrs1) as H0 by (rewrite M1; apply Z.div_pos; lia).
  pose proof (round_nearest_even_bounds (shr_m mrs1) (loc_of_shr_record mrs1)) as R.
  fold m1 in R.
  destruct (shr_fexp_m m1 e1 loc_Exact ltac:(lia)) as [M2 E2].
  destruct (shr_fexp prec emax m1 e1 loc_Exact) as [mrs2 e2]. cbn [fst snd] in M2, E2.
  pose proof (Zdigits2_le m1 (shr_m mrs1 + 1) ltac:(lia)) as D1.
  pose proof (Zdigits2_le (shr_m mrs1) m1 ltac:(lia)) as D1'.
  pose proof (Zdigits2_succ (shr_m mrs1) H0) as D2.
  pose proof (Zdigits2_shiftr mx (Z.max 0 (fexp (Zdigits2 mx + ex) - ex)) Hm ltac:(lia)) as D3.
  rewrite <- M1 in D3.
  pose proof (Zdigits2_shiftr m1 (Z.max 0 (fexp (Zdigits2 m1 + e1) - e1)) ltac:(lia) ltac:(lia)) as D4.
  rewrite <- M2 in D4. rewrite !fexp_eq in *.
  assert (Zdigits2 (shr_m mrs2) = 53) as D5 by lia.
  destruct (shr_m mrs2) as [|m|m]; [simpl in D5; lia| |simpl in D5].
  - exists m, e2. unfold emax, prec. change (1024 - 53) with 971.
    destruct (Z.leb_spec e2 971); [|lia].
    split; [reflexivity|]. split; [exact D5|]. split; [lia|].
    intros Hcarry.
    assert (Z.max 0 (Z.max (Zdigits2 m1 + e1 - 53) (-1074) - e1) = 1) as K2 by lia.
    rewrite K2 in M2. change (2 ^ 1) with 2 in M2.
    assert (Zdigits2 m1 = 54) as Dm1 by lia.
    assert (shr_m mrs1 < 2 ^ 53) as U by (apply Zdigits2_lt_pow2; lia).
    assert (shr_m mrs1 <> 0) as Hnz
      by (intros E0; rewrite E0 in D3; simpl in D3; lia).
    pose proof (Zdigits2_ge_pow2 m1 54 ltac:(lia) ltac:(lia)) as L.
    change (2 ^ (54 - 1)) with (2 ^ 53) in L.
    assert (m1 = 2 ^ 53) as -> by lia. rewrite M2. reflexivity.
  - assert (0 <= Z.neg m) by (rewrite M2; apply Z.div_pos; lia). lia.
Qed.

End RoundAux.

Lemma valid_finite_bounds (s : bool) (m : positive) (e : Z) :
  valid (S754_finite s m e) = true ->
  Zdigits2 (Zpos m) <= 53 /\ -1074 <= e <= 971 /\
  (Zdigits2 (Zpos m) = 53 \/ e = -1074).
Proof.
  unfold valid, valid_binary, bounded, canonical_mantissa.
  intros H. apply andb_true_iff in H as [C B].
  apply Z.eqb_eq in C. apply Z.leb_le in B.
  change (SpecFloat.fexp prec emax) with (fun z => Z.max (z - 53) (-1074)) in C.
  change (emax - prec) with 971 in B.
  cbn beta in C. change (Zdigits2 (Zpos m)) with (Zpos (digits2_pos m)). lia.
Qed.

Lemma Zdigits2_mul (a c : positive) :
  Zdigits2 (Zpos (a * c)) <= Zdigits2 (Zpos a) + Zdigits2 (Zpos c).
Proof.
  rewrite !Zdigits2_log2 by lia. rewrite Pos2Z.inj_mul.
  pose proof (Z.log2_mul_above (Zpos a) (Zpos c) ltac:(lia) ltac:(lia)). lia.
Qed.

(** A positive constant below one half times a finite float: the product
    is finite (perhaps zero), with the sign of the float. *)
Lemma fmul_small_finite (mc : positive) (ec : Z) (x : float) :
  Zdigits2 (Zpos mc) + ec <= -1 -> ec <= 0 ->
  valid x = true -> is_finite x = true ->
  is_finite (fmul (S754_finite false mc ec) x) = true /\
  sign (fmul (S754_finite false mc ec) x) = sign x.
Proof.
  intros Hc He Hv Hf. destruct x as [s|s| |s m e]; try discriminate.
  - split; reflexivity.
  - destruct (valid_finite_bounds s m e Hv) as (Hd & Hb & _).
    pose proof (Zdigits2_mul mc m) as Hm.
    unfold fmul, SFmul. cbn [xorb].
    pose proof (binary_round_aux_finite s (Zpos (mc * m)) (ec + e) loc_Exact
                  ltac:(lia) ltac:(lia) ltac:(lia)) as R.
    destruct (binary_round_aux prec emax s (Zpos (mc * m)) (ec + e) loc_Exact);
      try contradiction; [subst|destruct R as [-> _]]; split; reflexivity.
Qed.

(** [ceil] gives the least integer that is not below the float: for a
    finite float [mant * 2^e] with [e < 0], [n - 1 < mant / 2^(-e) <= n]. *)
Lemma ceil_spec (s : bool) (m : positive) (e n : Z) :
  ceil (S754_finite s m e) = Ok n ->
  if 0 <=? e then n = mant s m * 2 ^ e
  else (n - 1) * 2 ^ (- e) < mant s m <= n * 2 ^ (- e).
Proof.
  unfold ceil. destruct (Z.leb_spec 0 e) as [He|He]; intros [= <-]; [reflexivity|].
  assert (0 < 2 ^ (- e)) as Hp by (apply Z.pow_pos_nonneg; lia).
  pose proof (Z.div_mod (- mant s m) (2 ^ (- e)) ltac:(lia)) as D.
  pose proof (Z.mod_pos_bound (- mant s m) (2 ^ (- e)) Hp) as B.
  nia.
Qed.

Lemma ceil_finite (x : float) :
  is_finite x = true ->
  exists n, ceil x = Ok n /\
    (sign x = true -> n <= 0) /\
    (sign x = false -> 0 <= n) /\
    (sign x = false -> is_zero x = false -> 1 <= n).
Proof.
  destruct x as [s|s| |s m e]; try discriminate; intros _.
  - exists 0. simpl. repeat split; try lia.
  - destruct (ceil (S754_finite s m e)) as [n|] eqn:E.
    2:{ unfold ceil in E. destruct (0 <=? e); discriminate. }
    exists n. split; [reflexivity|].
    apply ceil_spec in E. unfold mant, cond_Zopp in E. simpl.
    destruct (Z.leb_spec 0 e) as [He|He].
    + assert (0 < 2 ^ e) by (apply Z.pow_pos_nonneg; lia).
      destruct s; repeat split; intros; try discriminate; nia.
    + assert (0 < 2 ^ (- e)) by (apply Z.pow_pos_nonneg; lia).
      destruct s; repeat split; intros; try discriminate; nia.
Qed.

Example lfps_clk_freq_min_value :
  lfps_clk_freq_min = S754_finite false 5368709120000000 (-29).
Proof. vm_compute. reflexivity. Qed.

Example lfps_clk_freq_max_value :
  lfps_clk_freq_max = S754_finite false 6710886400000000 (-27).
Proof. vm_compute. reflexivity. Qed.

(** A valid frequency inside the range is a positive normal number with an
    exponent between -29 and -27. *)
Lemma in_range_shape (f : float) :
  valid f = true ->
  fge f lfps_clk_freq_min = true -> fle f lfps_clk_freq_max = true ->
  exists m e, f = S754_finite false m e /\ Zdigits2 (Zpos m) = 53 /\ -29 <= e <= -27.
Proof.
  intros Hv. unfold fge, fle.
  rewrite lfps_clk_freq_min_value, lfps_clk_freq_max_value.
  destruct f as [s|s| |s m e]; try (destruct s; discriminate); try discriminate.
  destruct s; [discriminate|].
  unfold SFleb, SFcompare. intros Hmin Hmax.
  destruct (valid_finite_bounds false m e Hv) as (Hd & Hb & Hn).
  assert (-29 <= e).
  { destruct (Z.compare_spec (-29) e); lia. }
  assert (e <= -27).
  { destruct (Z.compare_spec e (-27)); lia. }
  exists m, e. repeat split; lia.
Qed.

Example two_value : of_Z 2 = S754_finite false 4503599627370496 (-51).
Proof. vm_compute. reflexivity. Qed.

Lemma two_f_shape (f : float) :
  valid f = true ->
  fge f lfps_clk_freq_min = true -> fle f lfps_clk_freq_max = true ->
  exists m e, fmul (of_Z 2) f = S754_finite false m e /\
              Zdigits2 (Zpos m) = 53 /\ -28 <= e <= -25.
Proof.
  intros Hv Hmin Hmax.
  destruct (in_range_shape f Hv Hmin Hmax) as (mf & ef & -> & Hd & He).
  rewrite two_value. unfold fmul, SFmul. cbn [xorb].
  assert (Zdigits2 (Zpos (4503599627370496 * mf)) = 105) as D.
  { rewrite Zdigits2_log2 in * by lia. rewrite Pos2Z.inj_mul.
    change (Zpos 4503599627370496) with (2 ^ 52). rewrite Z.mul_comm.
    rewrite Z.log2_mul_pow2 by lia. lia. }
  destruct (binary_round_aux_normal false (Zpos (4503599627370496 * mf)) (-51 + ef)
              loc_Exact ltac:(lia) ltac:(lia) ltac:(lia)) as (m & e & E & Dm & Be & _).
  exists m, e. split; [exact E|]. split; [exact Dm|lia].
Qed.

(** A finite float divided by a normal number that is at least one (here:
    with an exponent of at least -28) is finite, with the sign of the
    dividend. *)
Lemma fdiv_finite (x : float) (my : positive) (ey : Z) :
  valid x = true -> is_finite x = true ->
  Zdigits2 (Zpos my) = 53 -> -28 <= ey ->
  is_finite (SFdiv prec emax x (S754_finite false my ey)) = true /\
  sign (SFdiv prec emax x (S754_finite false my ey)) = sign x.
Proof.
  intros Hv Hf Hd Hey. destruct x as [s|s| |s m e]; try discriminate.
  - simpl. rewrite xorb_false_r. split; reflexivity.
  - destruct (valid_finite_bounds s m e Hv) as (Hdm & Hb & _).
    unfold SFdiv, SFdiv_core_binary. rewrite xorb_false_r.
    change (SpecFloat.fexp prec emax) with (fun z => Z.max (z - 53) (-1074)).
    cbn beta. rewrite Hd.
    set (d1 := Zdigits2 (Zpos m)) in *.
    set (e' := Z.min (Z.max (d1 + e - (53 + ey) - 53) (-1074)) (e - ey)).
    set (m' := match e - ey - e' with
               | Z0 => Zpos m
               | Zpos _ => Z.shiftl (Zpos m) (e - ey - e')
               | Zneg _ => 0
               end).
    assert (0 <= m' /\ Zdigits2 m' <= d1 + (e - ey - e')) as [Hm' Hdm'].
    { subst m'. destruct (e - ey - e') as [|p|p] eqn:Es.
      - fold d1. lia.
      - split; [apply Z.shiftl_nonneg; lia|].
        assert (0 < Z.shiftl (Zpos m) (Zpos p)).
        { rewrite Z.shiftl_mul_pow2 by lia.
          apply Z.mul_pos_pos; [lia|apply Z.pow_pos_nonneg; lia]. }
        rewrite Zdigits2_log2 by assumption.
        rewrite Z.log2_shiftl by lia.
        subst d1. rewrite Zdigits2_log2 by lia. lia.
      - subst e'. lia. }
    assert (2 ^ 52 <= Zpos my) as Hmy.
    { rewrite Zdigits2_log2 in Hd by lia.
      replace 52 with (Z.log2 (Zpos my)) by lia.
      apply Z.log2_spec. lia. }
    destruct (Z.div_eucl m' (Zpos my)) as [q r] eqn:Eq.
    assert (q = m' / Zpos my) as Hq by (unfold Z.div; now rewrite Eq).
    assert (0 <= q) as Hq0 by (rewrite Hq; apply Z.div_pos; lia).
    assert (q <= m' / 2 ^ 52) as Hq1.
    { rewrite Hq. apply Z.div_le_compat_l; lia. }
    pose proof (Zdigits2_le q (m' / 2 ^ 52) ltac:(lia)) as D1.
    rewrite Zdigits2_shiftr in D1 by lia.
    pose proof (binary_round_aux_finite s q e' (new_location (Zpos my) r)
                  Hq0 ltac:(subst e'; lia) ltac:(subst e'; lia)) as R.
    destruct (binary_round_aux prec emax s q e' (new_location (Zpos my) r));
      try contradiction; [subst|destruct R as [-> _]]; split; reflexivity.
Qed.

Lemma ceil_le_pow2 (m : positive) (e n j : Z) :
  ceil (S754_finite false m e) = Ok n -> 0 <= j ->
  Zpos m <= 2 ^ (j - e) -> n <= 2 ^ j.
Proof.
  intros E Hj Hm.
  assert (e <= j) as Hej.
  { destruct (Z.le_gt_cases e j); [assumption|].
    rewrite Z.pow_neg_r in Hm by lia. lia. }
  apply ceil_spec in E. unfold mant, cond_Zopp in E.
  destruct (Z.leb_spec 0 e) as [He|He].
  - subst n.
    replace (2 ^ j) with (2 ^ (j - e) * 2 ^ e)
      by (rewrite <- Z.pow_add_r by lia; f_equal; lia).
    apply Z.mul_le_mono_nonneg_r; [apply Z.pow_nonneg; lia|exact Hm].
  - assert (0 < 2 ^ (- e)) by (apply Z.pow_pos_nonneg; lia).
    replace (j - e) with (j + - e) in Hm by lia.
    rewrite Z.pow_add_r in Hm by lia. nia.
Qed.

Lemma ceil_ge_pow2 (m : positive) (e n j : Z) :
  ceil (S754_finite false m e) = Ok n -> 0 <= j ->
  2 ^ (j - e) <= Zpos m -> 2 ^ j <= n.
Proof.
  intros E Hj Hm. apply ceil_spec in E. unfold mant, cond_Zopp in E.
  destruct (Z.leb_spec 0 e) as [He|He].
  - subst n. destruct (Z.le_gt_cases e j) as [Hej|Hej].
    + replace (2 ^ j) with (2 ^ (j - e) * 2 ^ e)
        by (rewrite <- Z.pow_add_r by lia; f_equal; lia).
      apply Z.mul_le_mono_nonneg_r; [apply Z.pow_nonneg; lia|exact Hm].
    + assert (2 ^ j <= 2 ^ e) by (apply Z.pow_le_mono_r; lia).
      assert (0 < 2 ^ e) by (apply Z.pow_pos_nonneg; lia). nia.
  - assert (0 < 2 ^ (- e)) by (apply Z.pow_pos_nonneg; lia).
    replace (j - e) with (j + - e) in Hm by lia.
    rewrite Z.pow_add_r in Hm by lia. nia.
Qed.

(** The magnitude of the exact product of a normal constant and a float. *)
Lemma Zdigits2_mul_normal (mc m : positive) :
  Zdigits2 (Zpos mc) = 53 ->
  Zdigits2 (Zpos m) + 52 <= Zdigits2 (Zpos (mc * m)) <= Zdigits2 (Zpos m) + 53.
Proof.
  intros Hc. pose proof (Zdigits2_mul mc m) as U.
  rewrite !Zdigits2_log2 in * by lia. rewrite Pos2Z.inj_mul in *.
  pose proof (Z.log2_mul_below (Zpos mc) (Zpos m) ltac:(lia) ltac:(lia)). lia.
Qed.

Section Product.

Variables (mc m : positive) (ec e : Z).
Hypothesis Hc : Zdigits2 (Zpos mc) = 53.
Hypothesis Hec : -80 <= ec <= -60.
Hypothesis Hv : valid (S754_finite false m e) = true.

(** In the normal range the rounded product lies between the powers of
    two around the exact product. *)
Lemma product_normal :
  -1021 - 52 - ec <= Zdigits2 (Zpos m) + e ->
  exists m2 e2,
    fmul (S754_finite false mc ec) (S754_finite false m e) = S754_finite false m2 e2 /\
    2 ^ (Zdigits2 (Zpos m) + e + 51 + ec - e2) <= Zpos m2
      <= 2 ^ (Zdigits2 (Zpos m) + e + 53 + ec - e2).
Proof.
  intros HM.
  destruct (valid_finite_bounds false m e Hv) as (Hd & Hb & _).
  pose proof (Zdigits2_mul_normal mc m Hc) as D.
  unfold fmul, SFmul. cbn [xorb].
  destruct (binary_round_aux_normal false (Zpos (mc * m)) (ec + e) loc_Exact
              ltac:(simpl in *; lia) ltac:(lia) ltac:(lia))
    as (m2 & e2 & E & D2 & B & C).
  exists m2, e2. split; [exact E|].
  pose proof (Zdigits2_ge_pow2 (Zpos m2) 53 ltac:(lia) ltac:(lia)) as L.
  change (2 ^ (53 - 1)) with (2 ^ 52) in L.
  split.
  - apply Z.le_trans with (2 ^ 52); [|exact L].
    apply Z.pow_le_mono_r; lia.
  - destruct (Z.eq_dec (53 + e2) (Zdigits2 (Zpos (mc * m)) + (ec + e) + 1)) as [Ec|Ec].
    + rewrite (C Ec). apply Z.pow_le_mono_r; lia.
    + pose proof (Zdigits2_lt_pow2 (Zpos m2) 53 ltac:(lia) ltac:(lia) ltac:(lia)) as U.
      apply Z.le_trans with (2 ^ 53); [lia|].
      apply Z.pow_le_mono_r; lia.
Qed.

(** Below one the rounded product stays at most one. *)
Lemma product_small :
  Zdigits2 (Zpos m) + e + 53 + ec <= 0 ->
  exists n,
    ceil (fmul (S754_finite false mc ec) (S754_finite false m e)) = Ok n /\
    0 <= n <= 1.
Proof.
  intros HM.
  destruct (valid_finite_bounds false m e Hv) as (Hd & Hb & _).
  pose proof (Zdigits2_mul_normal mc m Hc) as D.
  destruct (Z.le_gt_cases (-1021 - 52 - ec) (Zdigits2 (Zpos m) + e)) as [Hn|Hn].
  - destruct (product_normal Hn) as (m2 & e2 & E & L & U). rewrite E.
    destruct (ceil_finite (S754_finite false m2 e2) eq_refl) as (n & En & _ & P & _).
    exists n. split; [exact En|]. split; [now apply P|].
    change 1 with (2 ^ 0). apply (ceil_le_pow2 m2 e2 n 0 En); [lia|].
    apply Z.le_trans with (2 ^ (Zdigits2 (Zpos m) + e + 53 + ec - e2)); [exact U|].
    apply Z.pow_le_mono_r; lia.
  - unfold fmul, SFmul. cbn [xorb].
    pose proof (binary_round_aux_finite false (Zpos (mc * m)) (ec + e) loc_Exact
                  ltac:(lia) ltac:(lia) ltac:(lia)) as R.
    destruct (binary_round_aux prec emax false (Zpos (mc * m)) (ec + e) loc_Exact)
      as [s|s| |s m2 e2]; try contradiction.
    + exists 0. simpl. split; [reflexivity|lia].
    + destruct R as [-> R]. specialize (R ltac:(lia)).
      destruct (ceil_finite (S754_finite false m2 e2) eq_refl) as (n & En & _ & P & _).
      exists n. split; [exact En|]. split; [now apply P|].
      change 1 with (2 ^ 0). apply (ceil_le_pow2 m2 e2 n 0 En); [lia|].
      assert (1 <= Zdigits2 (Zpos m2)) by (simpl; lia).
      pose proof (Zdigits2_lt_pow2 (Zpos m2) (0 - e2) ltac:(lia) ltac:(lia) ltac:(lia)).
      lia.
Qed.

End Product.

(* ------------------------------------------------------------------ *)
(** * The duration converter and the constructors *)

Example burst_t_typ_value : dec 10 7 = S754_finite false 4722366482869645 (-72).
Proof. vm_compute. reflexivity. Qed.

Example repeat_t_typ_value : dec 100 7 = S754_finite false 5902958103587057 (-69).
Proof. vm_compute. reflexivity. Qed.

(** For a finite clock frequency and a duration below half a second (a
    positive float [mc * 2^ec] with [digits mc + ec <= -1]) the conversion
    returns an integer with the sign of the frequency; it is at least 1
    when the frequency is positive and the product does not underflow to
    zero. *)
Lemma ns_to_cycles_small (mc : positive) (ec : Z) (clk_freq : float) :
  Zdigits2 (Zpos mc) + ec <= -1 -> ec <= 0 ->
  valid clk_freq = true -> is_finite clk_freq = true ->
  exists n, ns_to_cycles clk_freq (S754_finite false mc ec) = Ok n /\
    (is_zero clk_freq = true -> n = 0) /\
    (sign clk_freq = true -> n <= 0) /\
    (sign clk_freq = false -> 0 <= n) /\
    (sign clk_freq = false ->
     is_zero (fmul (S754_finite false mc ec) clk_freq) = false -> 1 <= n).
Proof.
  intros Hc He Hv Hf. unfold ns_to_cycles.
  destruct (fmul_small_finite mc ec clk_freq Hc He Hv Hf) as [Pf Ps].
  destruct (ceil_finite _ Pf) as (n & En & Hneg & Hpos & Hone).
  rewrite Ps in *. exists n. split; [exact En|]. repeat split; auto.
  intros Hz. destruct clk_freq; try discriminate. simpl in En. congruence.
Qed.

(** The two Polling tick counts of a positive clock frequency: when one of
    them is at least 2 (as [Signal(max=...)] requires), the burst count is
    at least 1 and the repeat count is larger. *)
Lemma polling_cycles_order (m : positive) (e b r : Z) :
  valid (S754_finite false m e) = true ->
  ns_to_cycles (S754_finite false m e) (dec 10 7) = Ok b ->
  ns_to_cycles (S754_finite false m e) (dec 100 7) = Ok r ->
  2 <= Z.max b r ->
  1 <= b < r.
Proof.
  intros Hv Eb Er Hmax.
  rewrite burst_t_typ_value in Eb. rewrite repeat_t_typ_value in Er.
  unfold ns_to_cycles in Eb, Er.
  destruct (valid_finite_bounds false m e Hv) as (Hd & Hb & _).
  set (M := Zdigits2 (Zpos m) + e) in *.
  assert (1 <= Zdigits2 (Zpos m)) as Hd1 by (simpl; lia).
  destruct (Z.le_gt_cases 19 M) as [HM|HM].
  - (* the burst count is at most 2^(M-19), the repeat count at least twice that *)
    destruct (product_normal 4722366482869645 m (-72) e eq_refl ltac:(lia) Hv ltac:(fold M; lia))
      as (m6 & e6 & E6 & L6 & U6).
    destruct (product_normal 5902958103587057 m (-69) e eq_refl ltac:(lia) Hv ltac:(fold M; lia))
      as (m5 & e5 & E5 & L5 & U5).
    fold M in L6, U6, L5, U5. rewrite E6 in Eb. rewrite E5 in Er.
    pose proof (ceil_le_pow2 m6 e6 b (M - 19) Eb ltac:(lia)) as Ub.
    pose proof (ceil_ge_pow2 m5 e5 r (M - 18) Er ltac:(lia)) as Lr.
    replace (M + 53 + -72 - e6) with (M - 19 - e6) in U6 by lia.
    replace (M + 51 + -69 - e5) with (M - 18 - e5) in L5 by lia.
    specialize (Ub U6). specialize (Lr L5).
    destruct (ceil_finite (S754_finite false m6 e6) eq_refl) as (b' & Eb' & _ & _ & P).
    rewrite Eb in Eb'. injection Eb' as <-.
    specialize (P eq_refl eq_refl).
    replace (M - 18) with (Z.succ (M - 19)) in Lr by lia.
    rewrite Z.pow_succ_r in Lr by lia.
    assert (0 < 2 ^ (M - 19)) by (apply Z.pow_pos_nonneg; lia). lia.
  - destruct (product_small 4722366482869645 m (-72) e eq_refl ltac:(lia) Hv ltac:(fold M; lia))
      as (b' & Eb' & Bb).
    rewrite Eb in Eb'. injection Eb' as <-.
    destruct (Z.le_gt_cases M 16) as [HM'|HM'].
    + destruct (product_small 5902958103587057 m (-69) e eq_refl ltac:(lia) Hv ltac:(fold M; lia))
        as (r' & Er' & Br).
      rewrite Er in Er'. injection Er' as <-. lia.
    + destruct (product_normal 4722366482869645 m (-72) e eq_refl ltac:(lia) Hv ltac:(fold M; lia))
        as (m6 & e6 & E6 & _).
      rewrite E6 in Eb.
      destruct (ceil_finite (S754_finite false m6 e6) eq_refl) as (b' & Eb' & _ & _ & P).
      rewrite Eb in Eb'. injection Eb' as <-.
      specialize (P eq_refl eq_refl). lia.
Qed.

Lemma rx_init_nonpositive (sys_clk_freq : float) :
  valid sys_clk_freq = true -> is_finite sys_clk_freq = true ->
  is_zero sys_clk_freq = true \/ sign sys_clk_freq = true ->
  LFPSReceiver.init sys_clk_freq = Raise AssertionError.
Proof.
  intros Hv Hf Hle.
  destruct (ns_to_cycles_small 4722366482869645 (-72) sys_clk_freq
              ltac:(simpl; lia) ltac:(lia) Hv Hf) as (b & Eb & Zb & Nb & _).
  destruct (ns_to_cycles_small 5902958103587057 (-69) sys_clk_freq
              ltac:(simpl; lia) ltac:(lia) Hv Hf) as (r & Er & Zr & Nr & _).
  rewrite <- burst_t_typ_value in Eb. rewrite <- repeat_t_typ_value in Er.
  assert (b <= 0 /\ r <= 0) as [Hb Hr].
  { destruct Hle as [Hz|Hs].
    - rewrite (Zb Hz), (Zr Hz). lia.
    - split; auto. }
  unfold LFPSReceiver.init.
  change (burst_t_typ PollingLFPS) with (Ok (dec 10 7)).
  change (repeat_t_typ PollingLFPS) with (Ok (dec 100 7)).
  cbn [Py.bind]. rewrite Eb. cbn [Py.bind]. rewrite Er. cbn [Py.bind].
  unfold Signal_max, assert.
  destruct (Z.ltb_spec 0 (Z.max b r - 1)); [lia|reflexivity].
Qed.

Lemma rx_init_inv (sys_clk_freq : float) (p : LFPSReceiver.t) :
  LFPSReceiver.init sys_clk_freq = Ok p ->
  ns_to_cycles sys_clk_freq (dec 10 7) = Ok (LFPSReceiver.burst_cycles p) /\
  ns_to_cycles sys_clk_freq (dec 100 7) = Ok (LFPSReceiver.repeat_cycles p) /\
  LFPSReceiver.of_cycles (LFPSReceiver.burst_cycles p)
                         (LFPSReceiver.repeat_cycles p) = Ok p.
Proof.
  unfold LFPSReceiver.init, LFPSReceiver.of_cycles. intros H.
  apply bind_ok in H as (tb & Htb & H). apply Ok_inj in Htb. subst tb.
  apply bind_ok in H as (b & Hb & H).
  apply bind_ok in H as (tr & Htr & H). apply Ok_inj in Htr. subst tr.
  apply bind_ok in H as (r & Hr & H).
  apply bind_ok in H as (w & Hw & H).
  apply Ok_inj in H. subst p.
  cbn [LFPSReceiver.burst_cycles LFPSReceiver.repeat_cycles].
  rewrite Hw. repeat split; assumption.
Qed.

(** Every receiver that is constructed has [1 <= burst_cycles <
    repeat_cycles]. *)
Lemma rx_init_cycles_order (sys_clk_freq : float) (p : LFPSReceiver.t) :
  valid sys_clk_freq = true ->
  LFPSReceiver.init sys_clk_freq = Ok p ->
  1 <= LFPSReceiver.burst_cycles p < LFPSReceiver.repeat_cycles p.
Proof.
  intros Hv Hp.
  destruct (rx_init_inv _ _ Hp) as (Eb & Er & Hc).
  assert (2 <= Z.max (LFPSReceiver.burst_cycles p) (LFPSReceiver.repeat_cycles p)) as Hmax.
  { unfold LFPSReceiver.of_cycles in Hc.
    apply bind_ok in Hc as (w & Hw & _). apply Signal_max_bound in Hw. lia. }
  destruct sys_clk_freq as [s|s| |s m e].
  - rewrite (rx_init_nonpositive (S754_zero s) Hv eq_refl (or_introl eq_refl)) in Hp.
    discriminate Hp.
  - rewrite burst_t_typ_value in Eb. vm_compute in Eb. discriminate Eb.
  - rewrite burst_t_typ_value in Eb. vm_compute in Eb. discriminate Eb.
  - destruct s.
    + rewrite (rx_init_nonpositive (S754_finite true m e) Hv eq_refl (or_intror eq_refl)) in Hp.
      discriminate Hp.
    + now apply (polling_cycles_order m e).
Qed.

Lemma nonpositive_cases (x : float) :
  is_finite x = true -> fle x (of_Z 0) = true ->
  is_zero x = true \/ sign x = true.
Proof.
  destruct x as [s|s| |s m e]; try discriminate; intros _; [now left|].
  destruct s; [now right|discriminate].
Qed.

(** The tick counts of the Polling timing for a finite, positive clock
    frequency: both conversions return, and each count is at least 1 unless
    its float product underflows to zero. *)
Lemma polling_cycles_positive (clk_freq : float) :
  valid clk_freq = true -> is_finite clk_freq = true -> sign clk_freq = false ->
  exists b r,
    ns_to_cycles clk_freq (dec 10 7) = Ok b /\
    ns_to_cycles clk_freq (dec 100 7) = Ok r /\
    0 <= b /\ 0 <= r /\
    (is_zero (fmul (dec 10 7) clk_freq) = false -> 1 <= b) /\
    (is_zero (fmul (dec 100 7) clk_freq) = false -> 1 <= r).
Proof.
  intros Hv Hf Hs.
  destruct (ns_to_cycles_small 4722366482869645 (-72) clk_freq
              ltac:(simpl; lia) ltac:(lia) Hv Hf) as (b & Eb & _ & _ & Pb & Ob).
  destruct (ns_to_cycles_small 5902958103587057 (-69) clk_freq
              ltac:(simpl; lia) ltac:(lia) Hv Hf) as (r & Er & _ & _ & Pr & Or).
  rewrite <- burst_t_typ_value in Eb, Ob. rewrite <- repeat_t_typ_value in Er, Or.
  exists b, r. repeat split; auto.
Qed.

(** The product can underflow: the smallest positive float as a clock
    frequency gives zero ticks for a positive duration. *)
Example ns_to_cycles_underflow :
  valid (S754_finite false 1 (-1074)) = true /\
  ns_to_cycles (S754_finite false 1 (-1074)) (dec 10 7) = Ok 0.
Proof. split; vm_compute; reflexivity. Qed.

(** C5 at 100 MHz: the burst duration converts to 100 ticks, but the repeat
    duration converts to 1001 ticks, not 1000: the float product
    [10.0e-6 * 100e6] is 1000.0000000000001 (mantissa 8796093022208001,
    exponent -43), and [ceil] takes it to the next integer. *)
Theorem ns_to_cycles_100MHz :
  burst_t_typ PollingLFPS = Ok (dec 10 7) /\
  repeat_t_typ PollingLFPS = Ok (dec 100 7) /\
  ns_to_cycles (of_Z 100000000) (dec 10 7) = Ok 100 /\
  fmul (dec 100 7) (of_Z 100000000) = S754_finite false 8796093022208001 (-43) /\
  ns_to_cycles (of_Z 100000000) (dec 100 7) = Ok 1001.
Proof. repeat split; vm_compute; reflexivity. Qed.

Lemma tx_init_out_of_range (sys_clk_freq lfps_clk_freq : float) :
  in_range lfps_clk_freq = false ->
  LFPSTransmitter.init sys_clk_freq lfps_clk_freq = Raise AssertionError.
Proof.
  unfold in_range. intros H. unfold LFPSTransmitter.init.
  destruct (fge lfps_clk_freq lfps_clk_freq_min); [|reflexivity].
  simpl in H. rewrite H. reflexivity.
Qed.

Lemma tx_init_in_range (sys_clk_freq lfps_clk_freq : float) :
  in_range lfps_clk_freq = true -> valid lfps_clk_freq = true ->
  valid sys_clk_freq = true -> is_finite sys_clk_freq = true ->
  exists p, LFPSTransmitter.init sys_clk_freq lfps_clk_freq = Ok p.
Proof.
  unfold in_range. intros H Hvf Hv Hf. apply andb_true_iff in H as [Hmin Hmax].
  destruct (two_f_shape lfps_clk_freq Hvf Hmin Hmax) as (my & ey & Ey & Dy & By).
  destruct (fdiv_finite sys_clk_freq my ey Hv Hf Dy ltac:(lia)) as [Qf _].
  destruct (ceil_finite _ Qf) as (n & En & _).
  destruct (ns_to_cycles_small 4722366482869645 (-72) sys_clk_freq
              ltac:(simpl; lia) ltac:(lia) Hv Hf) as (b & Eb & _).
  destruct (ns_to_cycles_small 5902958103587057 (-69) sys_clk_freq
              ltac:(simpl; lia) ltac:(lia) Hv Hf) as (r & Er & _).
  rewrite <- burst_t_typ_value in Eb. rewrite <- repeat_t_typ_value in Er.
  unfold LFPSTransmitter.init. rewrite Hmin, Hmax. cbn [assert Py.bind].
  unfold fdiv. rewrite Ey. cbn [is_zero Py.bind]. rewrite En. cbn [Py.bind].
  change (burst_t_typ PollingLFPS) with (Ok (dec 10 7)).
  change (repeat_t_typ PollingLFPS) with (Ok (dec 100 7)).
  cbn [Py.bind]. rewrite Eb. cbn [Py.bind]. rewrite Er. cbn [Py.bind].
  eexists. reflexivity.
Qed.

(** C7: [LFPSTransmitter] is not constructed when the LFPS clock frequency
    is outside [lfps_clk_freq_min, lfps_clk_freq_max] (10 MHz to 50 MHz; a
    NaN is outside): an [AssertionError] is raised, as with 60 MHz.  With a
    frequency inside the range and a finite system clock frequency the
    construction succeeds. *)
Theorem tx_init_frequency_range (sys_clk_freq lfps_clk_freq : float) :
  (in_range lfps_clk_freq = false ->
   LFPSTransmitter.init sys_clk_freq lfps_clk_freq = Raise AssertionError) /\
  (in_range lfps_clk_freq = true ->
   valid lfps_clk_freq = true ->
   valid sys_clk_freq = true -> is_finite sys_clk_freq = true ->
   exists p, LFPSTransmitter.init sys_clk_freq lfps_clk_freq = Ok p).
Proof.
  split; [apply tx_init_out_of_range|apply tx_init_in_range].
Qed.

Lemma tx_init_frequency_range_witness :
  LFPSTransmitter.init (of_Z 100000000) (of_Z 60000000) = Raise AssertionError /\
  exists p, LFPSTransmitter.init (of_Z 100000000) (of_Z 25000000) = Ok p.
Proof.
  split.
  - apply (tx_init_frequency_range (of_Z 100000000) (of_Z 60000000)).
    vm_compute. reflexivity.
  - apply (tx_init_frequency_range (of_Z 100000000) (of_Z 25000000));
      vm_compute; reflexivity.
Defined.

(** C8, as the code has it: with a zero or negative (finite) tick rate
    [LFPSReceiver] is not constructed, because both tick counts are then at
    most zero and [Signal(max=...)] asserts a non-empty range; but
    [LFPSTransmitter] checks only the LFPS clock frequency, and with a
    frequency in range it is constructed whatever the finite tick rate. *)
Theorem nonpositive_tick_rate (sys_clk_freq : float) :
  valid sys_clk_freq = true -> is_finite sys_clk_freq = true ->
  fle sys_clk_freq (of_Z 0) = true ->
  LFPSReceiver.init sys_clk_freq = Raise AssertionError /\
  (forall lfps_clk_freq,
     valid lfps_clk_freq = true -> in_range lfps_clk_freq = true ->
     exists p, LFPSTransmitter.init sys_clk_freq lfps_clk_freq = Ok p).
Proof.
  intros Hv Hf Hle. split.
  - apply rx_init_nonpositive; try assumption.
    now apply nonpositive_cases.
  - intros f Hvf Hin. now apply tx_init_in_range.
Qed.

Lemma nonpositive_tick_rate_witness :
  LFPSReceiver.init (of_Z (-100000000)) = Raise AssertionError /\
  (forall lfps_clk_freq,
     valid lfps_clk_freq = true -> in_range lfps_clk_freq = true ->
     exists p, LFPSTransmitter.init (of_Z (-100000000)) lfps_clk_freq = Ok p).
Proof.
  apply (nonpositive_tick_rate (of_Z (-100000000))); vm_compute; reflexivity.
Defined.

(** C8 as stated fails: with a tick rate of zero and an LFPS clock of
    25 MHz the transmitter is constructed (its three timers are loaded with
    -1, 0 and 0). *)
Lemma tx_accepts_zero_tick_rate : ~ rejects_nonpositive_tick_rate.
Proof.
  intros H.
  destruct (H (of_Z 0) (of_Z 25000000)) as [_ H2]; try reflexivity.
  vm_compute in H2. discriminate.
Qed.

(* ------------------------------------------------------------------ *)
(** * The detector *)

Section Detector.

Import LFPSReceiver.

Variable p : LFPSReceiver.t.
Variables b r : Z.
Hypothesis Hp : of_cycles b r = Ok p.
Hypothesis Hb : 1 <= b.
Hypothesis Hbr : b < r.

Lemma of_cycles_fields :
  burst_cycles p = b /\ repeat_cycles p = r /\ r <= 2 ^ count_bits p.
Proof.
  unfold of_cycles in Hp.
  destruct (Signal_max (Z.max b r)) as [w|e] eqn:Hw; simpl in Hp; [|discriminate].
  injection Hp as <-. simpl.
  apply Signal_max_bound in Hw. repeat split; lia.
Qed.

Lemma tick_burst_reload (f : bool) :
  tick p {| state := TBURST; count := 0; found := f |} false =
  {| state := TBURST; count := b - 1; found := false |}.
Proof.
  destruct of_cycles_fields as (Eb & Er & Hw).
  unfold tick; simpl. rewrite Eb, trunc_small by lia.
  destruct f; reflexivity.
Qed.

Lemma tick_burst_to_repeat (f : bool) :
  tick p {| state := TBURST; count := 0; found := f |} true =
  {| state := TREPEAT; count := r - b - 1; found := f |}.
Proof.
  destruct of_cycles_fields as (Eb & Er & Hw).
  unfold tick; simpl. rewrite Eb, Er, trunc_small by lia.
  destruct f; reflexivity.
Qed.

Lemma tick_burst_count (c : Z) (f idle : bool) :
  0 < c < r ->
  tick p {| state := TBURST; count := c; found := f |} idle =
  {| state := TBURST; count := c - 1;
     found := if f && negb idle then false else f |}.
Proof.
  intros Hc. destruct of_cycles_fields as (Eb & Er & Hw).
  unfold tick; simpl.
  destruct (Z.eqb_spec c 0); [lia|].
  rewrite trunc_small by lia. reflexivity.
Qed.

Lemma tick_repeat_count (c : Z) (f : bool) :
  0 < c < r ->
  tick p {| state := TREPEAT; count := c; found := f |} true =
  {| state := TREPEAT; count := c - 1; found := f |}.
Proof.
  intros Hc. destruct of_cycles_fields as (Eb & Er & Hw).
  unfold tick; simpl.
  destruct (Z.eqb_spec c 0); [lia|]. simpl.
  rewrite trunc_small by lia. reflexivity.
Qed.

Lemma tick_repeat_done (f idle : bool) :
  tick p {| state := TREPEAT; count := 0; found := f |} idle =
  {| state := TBURST; count := b - 1; found := true |}.
Proof.
  destruct of_cycles_fields as (Eb & Er & Hw).
  unfold tick; simpl. rewrite Eb, trunc_small by lia. reflexivity.
Qed.

Lemma tick_repeat_early (c : Z) (f : bool) :
  c <> 0 ->
  tick p {| state := TREPEAT; count := c; found := f |} false =
  {| state := TBURST; count := b - 1; found := false |}.
Proof.
  intros Hc. destruct of_cycles_fields as (Eb & Er & Hw).
  unfold tick; simpl. rewrite Eb, trunc_small by lia.
  destruct (Z.eqb_spec c 0); [lia|]. reflexivity.
Qed.

Lemma run_app (s : regs) (l1 l2 : list bool) :
  run p s (l1 ++ l2) =
  let '(o1, s1) := run p s l1 in
  let '(o2, s2) := run p s1 l2 in
  (o1 ++ o2, s2).
Proof.
  revert s. induction l1 as [|i l1 IH]; intros s; simpl.
  - destruct (run p s l2); reflexivity.
  - rewrite IH. destruct (run p (tick p s i) l1) as [o1 s1].
    destruct (run p s1 l2); reflexivity.
Qed.

(** Counting a burst down: with [found] clear nothing is output, whatever
    the input does. *)
Lemma run_burst_countdown (n : nat) (l : list bool) :
  length l = n -> Z.of_nat n < r ->
  run p {| state := TBURST; count := Z.of_nat n; found := false |} l =
  (List.repeat false n, {| state := TBURST; count := 0; found := false |}).
Proof.
  revert l. induction n as [|n IH]; intros l Hl Hn.
  - destruct l; [reflexivity|discriminate].
  - destruct l as [|i l]; [discriminate|]. injection Hl as Hl.
    cbn [run]. rewrite tick_burst_count by lia.
    replace (Z.of_nat (S n) - 1) with (Z.of_nat n) by lia.
    cbn [andb]. rewrite (IH l Hl) by lia. reflexivity.
Qed.

(** Counting the gap down while the line stays idle. *)
Lemma run_repeat_partial (n : nat) (c : Z) (f : bool) :
  Z.of_nat n <= c < r ->
  run p {| state := TREPEAT; count := c; found := f |} (List.repeat true n) =
  (List.repeat false n, {| state := TREPEAT; count := c - Z.of_nat n; found := f |}).
Proof.
  revert c. induction n as [|n IH]; intros c Hn.
  - simpl. now rewrite Z.sub_0_r.
  - cbn [List.repeat run]. rewrite tick_repeat_count by lia.
    rewrite IH by lia.
    replace (c - 1 - Z.of_nat n) with (c - Z.of_nat (S n)) by lia.
    reflexivity.
Qed.

Lemma run_repeat_countdown (n : nat) (f : bool) :
  Z.of_nat n < r ->
  run p {| state := TREPEAT; count := Z.of_nat n; found := f |}
        (List.repeat true n) =
  (List.repeat false n, {| state := TREPEAT; count := 0; found := f |}).
Proof.
  intros Hn. rewrite run_repeat_partial by lia. now rewrite Z.sub_diag.
Qed.

(** The tail of a period, from the tick on which the burst count runs out
    with the line idle again: the gap is counted down to zero. *)
Lemma run_gap (f : bool) :
  run p {| state := TBURST; count := 0; found := f |}
        (List.repeat true (Z.to_nat (r - b))) =
  (List.repeat false (Z.to_nat (r - b)),
   {| state := TREPEAT; count := 0; found := f |}).
Proof.
  replace (Z.to_nat (r - b)) with (S (Z.to_nat (r - b - 1))) by lia.
  cbn [List.repeat run]. rewrite tick_burst_to_repeat.
  replace (r - b - 1) with (Z.of_nat (Z.to_nat (r - b - 1))) at 1 by lia.
  rewrite run_repeat_countdown by lia.
  unfold polling; simpl. rewrite andb_false_r. reflexivity.
Qed.

(** The first period after reset arms the detector and outputs nothing. *)
Lemma run_first_cycle :
  run p reset (cycle b r) =
  (List.repeat false (Z.to_nat r), {| state := TREPEAT; count := 0; found := false |}).
Proof.
  unfold cycle. rewrite run_app.
  replace (Z.to_nat b) with (S (Z.to_nat (b - 1))) by lia.
  cbn [List.repeat run]. unfold reset. rewrite tick_burst_reload.
  replace (b - 1) with (Z.of_nat (Z.to_nat (b - 1))) at 1 by lia.
  rewrite run_burst_countdown by (rewrite ?repeat_length; lia).
  rewrite run_gap.
  unfold polling; simpl.
  rewrite <- repeat_app.
  replace (Z.to_nat r) with (S (Z.to_nat (b - 1) + Z.to_nat (r - b)))%nat by lia.
  reflexivity.
Qed.

Lemma count_inv_tick (s : regs) (idle : bool) :
  count_inv b r s -> count_inv b r (tick p s idle).
Proof.
  destruct of_cycles_fields as (Eb & Er & Hw).
  destruct s as [st c f]. unfold count_inv, tick; simpl.
  rewrite Eb, Er. destruct st; intros Hc.
  - destruct (Z.eqb_spec c 0) as [->|Hz].
    + destruct idle; simpl; rewrite trunc_small; lia.
    + simpl. rewrite trunc_small; lia.
  - destruct (Z.eqb_spec c 0) as [->|Hz]; simpl.
    + rewrite trunc_small; lia.
    + destruct idle; simpl; rewrite trunc_small; lia.
Qed.

Lemma count_inv_reachable (s : regs) : reachable p s -> count_inv b r s.
Proof.
  induction 1 as [|s idle _ IH].
  - unfold count_inv; simpl. lia.
  - now apply count_inv_tick.
Qed.

(** What one clock edge does to [count]: a reload, or a decrement of a
    counter that is not zero. *)
Lemma count_tick_cases (s : regs) (idle : bool) :
  count_inv b r s ->
  count (tick p s idle) = b - 1 \/
  count (tick p s idle) = r - b - 1 \/
  (0 < count s /\ count (tick p s idle) = count s - 1).
Proof.
  destruct of_cycles_fields as (Eb & Er & Hw).
  destruct s as [st c f]. unfold count_inv, tick; simpl.
  rewrite Eb, Er. destruct st; intros Hc.
  - destruct (Z.eqb_spec c 0) as [->|Hz].
    + destruct idle; simpl; rewrite trunc_small by lia; auto.
    + simpl. rewrite trunc_small by lia. right; right. lia.
  - destruct (Z.eqb_spec c 0) as [->|Hz]; simpl.
    + rewrite trunc_small by lia; auto.
    + destruct idle; simpl; rewrite trunc_small by lia; auto.
      right; right. lia.
Qed.

(** An early burst: the gap counter is not yet zero when the line goes
    low. *)
Lemma run_early_reburst (h : nat) (f : bool) :
  (1 <= h)%nat -> Z.of_nat h < r - b ->
  run p {| state := TBURST; count := 0; found := f |}
        (List.repeat true h ++ [false]) =
  (List.repeat false (S h),
   {| state := TBURST; count := b - 1; found := false |}).
Proof.
  intros Hh Hlt. rewrite run_app.
  replace h with (S (h - 1)) at 1 by lia.
  cbn [List.repeat run]. rewrite tick_burst_to_repeat.
  rewrite run_repeat_partial by lia.
  cbn [run]. rewrite tick_repeat_early by lia.
  unfold polling; simpl. rewrite andb_false_r.
  replace (false :: List.repeat false (h - 1) ++ [false])
    with (List.repeat false (S (h - 1)) ++ List.repeat false 1) by reflexivity.
  rewrite <- repeat_app.
  replace (S (h - 1) + 1)%nat with (S h) by lia. reflexivity.
Qed.

Hypothesis Hb2 : 2 <= b.

(** A period that follows a completed one: the gap counter is at zero on
    the burst-start tick, [found] is latched there, and the pulse comes out
    on the next tick. *)
Lemma run_armed_cycle (f : bool) :
  run p {| state := TREPEAT; count := 0; found := f |} (cycle b r) =
  (armed_cycle_out r, {| state := TREPEAT; count := 0; found := false |}).
Proof.
  unfold cycle, armed_cycle_out. rewrite run_app.
  replace (Z.to_nat b) with (S (S (Z.to_nat (b - 2)))) by lia.
  cbn [List.repeat run]. rewrite tick_repeat_done.
  rewrite tick_burst_count by lia. cbn [andb negb].
  replace (b - 1 - 1) with (Z.of_nat (Z.to_nat (b - 2))) by lia.
  rewrite run_burst_countdown by (rewrite ?repeat_length; lia).
  rewrite run_gap.
  unfold polling; simpl.
  rewrite <- repeat_app.
  replace (Z.to_nat (r - 2)) with (Z.to_nat (b - 2) + Z.to_nat (r - b))%nat by lia.
  reflexivity.
Qed.

Lemma run_armed_cadence (k : nat) (f : bool) :
  run p {| state := TREPEAT; count := 0; found := f |} (cadence b r k) =
  (concat (List.repeat (armed_cycle_out r) k),
   {| state := TREPEAT; count := 0; found := match k with O => f | _ => false end |}).
Proof.
  revert f. induction k as [|k IH]; intros f.
  - reflexivity.
  - unfold cadence. cbn [List.repeat concat]. rewrite run_app.
    rewrite run_armed_cycle. fold (cadence b r k). rewrite IH.
    destruct k; reflexivity.
Qed.

Lemma run_cadence (k : nat) :
  run p reset (cadence b r (S k)) =
  (List.repeat false (Z.to_nat r) ++ concat (List.repeat (armed_cycle_out r) k),
   {| state := TREPEAT; count := 0; found := false |}).
Proof.
  unfold cadence. cbn [List.repeat concat]. rewrite run_app.
  rewrite run_first_cycle. fold (cadence b r k). rewrite run_armed_cadence.
  destruct k; reflexivity.
Qed.

End Detector.

(* ------------------------------------------------------------------ *)
(** * Pulse trains *)

Section PulseTrains.

Lemma pulses_app (l1 l2 : list bool) :
  pulses (l1 ++ l2) = (pulses l1 + pulses l2)%nat.
Proof. unfold pulses. apply count_occ_app. Qed.

Lemma pulses_repeat_false (n : nat) : pulses (List.repeat false n) = 0%nat.
Proof. induction n as [|n IH]; [reflexivity|exact IH]. Qed.

Lemma nth_repeat_false (n m : nat) : nth n (List.repeat false m) false = false.
Proof.
  revert n. induction m as [|m IH]; intros [|n]; simpl; auto.
Qed.

Variable r : Z.
Hypothesis Hr : 2 <= r.

Lemma armed_cycle_length : length (armed_cycle_out r) = Z.to_nat r.
Proof. unfold armed_cycle_out. simpl. rewrite repeat_length. lia. Qed.

Lemma armed_cycle_pulses : pulses (armed_cycle_out r) = 1%nat.
Proof.
  unfold armed_cycle_out, pulses. simpl.
  fold (pulses (List.repeat false (Z.to_nat (r - 2)))).
  now rewrite pulses_repeat_false.
Qed.

Lemma armed_cycle_nth (n : nat) :
  nth n (armed_cycle_out r) false = true <-> n = 1%nat.
Proof.
  unfold armed_cycle_out. destruct n as [|[|n]]; simpl.
  - split; [discriminate|lia].
  - split; auto.
  - rewrite nth_repeat_false. split; [discriminate|lia].
Qed.

Lemma armed_train_length (k : nat) :
  length (concat (List.repeat (armed_cycle_out r) k)) = (k * Z.to_nat r)%nat.
Proof.
  induction k as [|k IH]; [reflexivity|].
  cbn [List.repeat concat]. rewrite length_app, IH, armed_cycle_length. lia.
Qed.

Lemma armed_train_pulses (k : nat) :
  pulses (concat (List.repeat (armed_cycle_out r) k)) = k.
Proof.
  induction k as [|k IH]; [reflexivity|].
  cbn [List.repeat concat]. rewrite pulses_app, IH, armed_cycle_pulses. lia.
Qed.

Lemma armed_train_nth (k n : nat) :
  nth n (concat (List.repeat (armed_cycle_out r) k)) false = true <->
  exists j, (j < k)%nat /\ n = (j * Z.to_nat r + 1)%nat.
Proof.
  revert n. induction k as [|k IH]; intros n.
  - simpl. destruct n; split; try discriminate; intros (j & Hj & _); lia.
  - cbn [List.repeat concat].
    destruct (Nat.lt_ge_cases n (Z.to_nat r)) as [Hn|Hn].
    + rewrite app_nth1 by (rewrite armed_cycle_length; lia).
      rewrite armed_cycle_nth. split.
      * intros ->. exists 0%nat. lia.
      * intros (j & Hj & ->). destruct j; [reflexivity|]. nia.
    + rewrite app_nth2 by (rewrite armed_cycle_length; lia).
      rewrite armed_cycle_length, IH. split.
      * intros (j & Hj & E). exists (S j). split; [lia|]. nia.
      * intros (j & Hj & E). destruct j as [|j]; [lia|].
        exists j. split; [lia|]. nia.
Qed.

End PulseTrains.

(* ------------------------------------------------------------------ *)
(** * The detector on the Polling cadence *)

Example init_125MHz : LFPSReceiver.init (of_Z 125000000) = Ok rx_125MHz.
Proof. vm_compute. reflexivity. Qed.

(** C1, as the code has it: for [2 <= burst_ticks < repeat_ticks] and
    [k >= 1], [k] periods of the cadence (low for [burst_ticks] ticks, high
    for [repeat_ticks - burst_ticks]) fed to the detector after reset give
    exactly [k - 1] one-tick [polling] pulses over those [k * repeat_ticks]
    ticks: pulse [j] ([1 <= j < k]) is on tick [j * repeat_ticks + 1], the
    tick after the burst-start tick of period [j + 1].  The first period
    only arms the detector, and after the last one the gap counter stands at
    zero, so that [found] is latched on the next tick. *)
Theorem detector_cadence_pulses (p : LFPSReceiver.t) (b r : Z) (k : nat) :
  LFPSReceiver.of_cycles b r = Ok p -> 2 <= b -> b < r -> (1 <= k)%nat ->
  let res := LFPSReceiver.run p LFPSReceiver.reset (cadence b r k) in
  length (fst res) = (k * Z.to_nat r)%nat /\
  pulses (fst res) = (k - 1)%nat /\
  (forall n, nth n (fst res) false = true <->
             exists j, (1 <= j < k)%nat /\ n = (j * Z.to_nat r + 1)%nat) /\
  snd res = {| LFPSReceiver.state := LFPSReceiver.TREPEAT;
               LFPSReceiver.count := 0;
               LFPSReceiver.found := false |}.
Proof.
  intros Hp Hb2 Hbr Hk. destruct k as [|k]; [lia|].
  cbv zeta. rewrite (run_cadence p b r Hp) by lia. cbn [fst snd].
  assert (Hr : 2 <= r) by lia.
  repeat split.
  - rewrite length_app, repeat_length, armed_train_length by exact Hr. lia.
  - rewrite pulses_app, pulses_repeat_false, armed_train_pulses by exact Hr. lia.
  - destruct (Nat.lt_ge_cases n (Z.to_nat r)) as [Hn|Hn].
    + rewrite app_nth1 by (rewrite repeat_length; lia).
      rewrite nth_repeat_false. discriminate.
    + rewrite app_nth2 by (rewrite repeat_length; lia).
      rewrite repeat_length. intros H. apply armed_train_nth in H; [|exact Hr].
      destruct H as (j & Hj & E). exists (S j). split; [lia|]. nia.
  - intros (j & Hj & ->).
    rewrite app_nth2 by (rewrite repeat_length; nia).
    rewrite repeat_length. apply armed_train_nth; [exact Hr|].
    exists (j - 1)%nat. split; [lia|]. nia.
Qed.

Lemma detector_cadence_pulses_witness :
  let res := LFPSReceiver.run rx_125MHz LFPSReceiver.reset (cadence 125 1250 3) in
  length (fst res) = (3 * Z.to_nat 1250)%nat /\
  pulses (fst res) = (3 - 1)%nat /\
  (forall n, nth n (fst res) false = true <->
             exists j, (1 <= j < 3)%nat /\ n = (j * Z.to_nat 1250 + 1)%nat) /\
  snd res = {| LFPSReceiver.state := LFPSReceiver.TREPEAT;
               LFPSReceiver.count := 0;
               LFPSReceiver.found := false |}.
Proof.
  apply (detector_cadence_pulses rx_125MHz 125 1250 3); [reflexivity|lia|lia|lia].
Defined.

(** C1 as stated fails: at 125 MHz ([burst_ticks = 125],
    [repeat_ticks = 1250]) three periods of the cadence give two pulses, not
    three, and they are on ticks 1251 and 2501, not on burst-start ticks. *)
Lemma detector_cadence_not_k_pulses :
  ~ k_pulses_on_burst_starts rx_125MHz 125 1250 3.
Proof.
  intros [H _]. vm_compute in H. discriminate.
Qed.

(** C4: an early re-burst, for every receiver that is constructed.  In the
    Repeat phase with a gap counter that is not yet zero, a low input gives
    no [polling] pulse, takes the machine back to the Burst phase with
    [found] cleared, and leaves no pulse for the next tick either.  The
    counter is not zero exactly while fewer than
    [repeat_ticks - burst_ticks] high ticks have been seen: from the tick on
    which the burst count ran out, [h] high ticks with
    [1 <= h < repeat_ticks - burst_ticks] followed by a low tick output
    nothing and end in the Burst phase with [found] false.  While [found]
    is false there is no pulse, and [found] stays false for the whole Burst
    phase: only a gap counted down to zero sets it again. *)
Theorem early_reburst_no_pulse (sys_clk_freq : float) (p : LFPSReceiver.t) :
  valid sys_clk_freq = true ->
  LFPSReceiver.init sys_clk_freq = Ok p ->
  let b := LFPSReceiver.burst_cycles p in
  let r := LFPSReceiver.repeat_cycles p in
  (forall c f, c <> 0 ->
     let s := {| LFPSReceiver.state := LFPSReceiver.TREPEAT;
                 LFPSReceiver.count := c; LFPSReceiver.found := f |} in
     LFPSReceiver.polling s false = false /\
     LFPSReceiver.tick p s false =
       {| LFPSReceiver.state := LFPSReceiver.TBURST;
          LFPSReceiver.count := b - 1; LFPSReceiver.found := false |} /\
     forall idle, LFPSReceiver.polling (LFPSReceiver.tick p s false) idle = false) /\
  (forall h f, (1 <= h)%nat -> Z.of_nat h < r - b ->
     LFPSReceiver.run p
       {| LFPSReceiver.state := LFPSReceiver.TBURST;
          LFPSReceiver.count := 0; LFPSReceiver.found := f |}
       (List.repeat true h ++ [false]) =
     (List.repeat false (S h),
      {| LFPSReceiver.state := LFPSReceiver.TBURST;
         LFPSReceiver.count := b - 1; LFPSReceiver.found := false |})) /\
  (forall s idle, LFPSReceiver.found s = false ->
     LFPSReceiver.polling s idle = false /\
     (LFPSReceiver.state s = LFPSReceiver.TBURST ->
      LFPSReceiver.found (LFPSReceiver.tick p s idle) = false)).
Proof.
  intros Hv Hi b r.
  destruct (rx_init_cycles_order _ _ Hv Hi) as [Hb Hbr].
  destruct (rx_init_inv _ _ Hi) as (_ & _ & Hp).
  fold b r in Hb, Hbr, Hp. split; [|split].
  - intros c f Hc s. subst s.
    rewrite (tick_repeat_early p b r Hp Hb Hbr c f Hc).
    repeat split.
  - intros h f Hh Hlt. now apply (run_early_reburst p b r Hp Hb Hbr).
  - intros [st c f] idle Hf. simpl in Hf. subst f. split.
    + destruct st; reflexivity.
    + simpl. intros ->. unfold LFPSReceiver.tick. simpl.
      destruct (c =? 0); [destruct idle|]; reflexivity.
Qed.

Lemma early_reburst_no_pulse_witness :
  let b := LFPSReceiver.burst_cycles rx_125MHz in
  let r := LFPSReceiver.repeat_cycles rx_125MHz in
  (forall c f, c <> 0 ->
     let s := {| LFPSReceiver.state := LFPSReceiver.TREPEAT;
                 LFPSReceiver.count := c; LFPSReceiver.found := f |} in
     LFPSReceiver.polling s false = false /\
     LFPSReceiver.tick rx_125MHz s false =
       {| LFPSReceiver.state := LFPSReceiver.TBURST;
          LFPSReceiver.count := b - 1; LFPSReceiver.found := false |} /\
     forall idle,
       LFPSReceiver.polling (LFPSReceiver.tick rx_125MHz s false) idle = false) /\
  (forall h f, (1 <= h)%nat -> Z.of_nat h < r - b ->
     LFPSReceiver.run rx_125MHz
       {| LFPSReceiver.state := LFPSReceiver.TBURST;
          LFPSReceiver.count := 0; LFPSReceiver.found := f |}
       (List.repeat true h ++ [false]) =
     (List.repeat false (S h),
      {| LFPSReceiver.state := LFPSReceiver.TBURST;
         LFPSReceiver.count := b - 1; LFPSReceiver.found := false |})) /\
  (forall s idle, LFPSReceiver.found s = false ->
     LFPSReceiver.polling s idle = false /\
     (LFPSReceiver.state s = LFPSReceiver.TBURST ->
      LFPSReceiver.found (LFPSReceiver.tick rx_125MHz s idle) = false)).
Proof.
  apply (early_reburst_no_pulse (of_Z 125000000) rx_125MHz);
    vm_compute; reflexivity.
Defined.

(** C9: in every state that a constructed detector reaches from reset,
    [count] lies in [0 .. max(burst_cycles, repeat_cycles) - 1], which fits
    the signal; both reload values lie in that range; and a clock edge
    either reloads [count] or decrements a [count] that is not zero, so it
    never wraps. *)
Theorem count_stays_in_range
    (sys_clk_freq : float) (p : LFPSReceiver.t) (s : LFPSReceiver.regs) :
  valid sys_clk_freq = true ->
  LFPSReceiver.init sys_clk_freq = Ok p ->
  reachable p s ->
  let b := LFPSReceiver.burst_cycles p in
  let r := LFPSReceiver.repeat_cycles p in
  0 <= LFPSReceiver.count s <= Z.max b r - 1 /\
  Z.max b r <= 2 ^ LFPSReceiver.count_bits p /\
  0 <= b - 1 <= Z.max b r - 1 /\
  0 <= r - b - 1 <= Z.max b r - 1 /\
  forall idle,
    LFPSReceiver.count (LFPSReceiver.tick p s idle) = b - 1 \/
    LFPSReceiver.count (LFPSReceiver.tick p s idle) = r - b - 1 \/
    (0 < LFPSReceiver.count s /\
     LFPSReceiver.count (LFPSReceiver.tick p s idle) = LFPSReceiver.count s - 1).
Proof.
  intros Hv Hi Hs b r.
  destruct (rx_init_cycles_order _ _ Hv Hi) as [Hb Hbr].
  destruct (rx_init_inv _ _ Hi) as (_ & _ & Hp).
  fold b r in Hb, Hbr, Hp.
  pose proof (count_inv_reachable p b r Hp Hb Hbr s Hs) as Hinv.
  destruct (of_cycles_fields p b r Hp Hbr) as (_ & _ & Hw).
  assert (0 <= LFPSReceiver.count s <= Z.max b r - 1) as Hc.
  { revert Hinv. unfold count_inv. destruct (LFPSReceiver.state s); lia. }
  repeat split; try lia.
  intros idle. now apply (count_tick_cases p b r Hp Hb Hbr).
Qed.

Lemma count_stays_in_range_witness :
  let s := LFPSReceiver.tick rx_125MHz LFPSReceiver.reset false in
  let b := LFPSReceiver.burst_cycles rx_125MHz in
  let r := LFPSReceiver.repeat_cycles rx_125MHz in
  0 <= LFPSReceiver.count s <= Z.max b r - 1 /\
  Z.max b r <= 2 ^ LFPSReceiver.count_bits rx_125MHz /\
  0 <= b - 1 <= Z.max b r - 1 /\
  0 <= r - b - 1 <= Z.max b r - 1 /\
  forall idle,
    LFPSReceiver.count (LFPSReceiver.tick rx_125MHz s idle) = b - 1 \/
    LFPSReceiver.count (LFPSReceiver.tick rx_125MHz s idle) = r - b - 1 \/
    (0 < LFPSReceiver.count s /\
     LFPSReceiver.count (LFPSReceiver.tick rx_125MHz s idle) = LFPSReceiver.count s - 1).
Proof.
  intros s.
  apply (count_stays_in_range (of_Z 125000000) rx_125MHz s);
    [vm_compute; reflexivity|vm_compute; reflexivity
    |apply reachable_tick, reachable_reset].
Defined.

(* ------------------------------------------------------------------ *)
(** * The generator *)

Lemma mod_succ_wrap (a m : Z) :
  0 <= a -> 0 < m -> a mod m = m - 1 ->
  (a + 1) mod m = 0 /\ (a + 1) / m = a / m + 1.
Proof.
  intros Ha Hm E. pose proof (Z.div_mod a m ltac:(lia)) as D.
  assert (a + 1 = m * (a / m + 1) + 0) as D' by lia.
  split.
  - symmetry. apply (Z.mod_unique (a + 1) m (a / m + 1) 0); [lia|exact D'].
  - symmetry. apply (Z.div_unique (a + 1) m (a / m + 1) 0); [lia|exact D'].
Qed.

Lemma mod_succ_step (a m : Z) :
  0 <= a -> 0 < m -> a mod m <> m - 1 ->
  (a + 1) mod m = a mod m + 1 /\ (a + 1) / m = a / m.
Proof.
  intros Ha Hm E. pose proof (Z.div_mod a m ltac:(lia)) as D.
  pose proof (Z.mod_pos_bound a m Hm) as B.
  assert (a + 1 = m * (a / m) + (a mod m + 1)) as D' by lia.
  split.
  - symmetry. apply (Z.mod_unique (a + 1) m (a / m) (a mod m + 1)); [lia|exact D'].
  - symmetry. apply (Z.div_unique (a + 1) m (a / m) (a mod m + 1)); [lia|exact D'].
Qed.

Section Generator.

Import LFPSTransmitter.

Variable p : LFPSTransmitter.t.

(** The oscillator: its timer restarts every [n0] ticks and the bit flips
    on each restart. *)
Lemma osc_closed (n0 : Z) (n : nat) :
  1 <= n0 -> clk_timer p = WaitTimer_init (n0 - 1) ->
  clk (at_tick p n) = Z.odd (Z.of_nat n / n0) /\
  clk_count (at_tick p n) = n0 - 1 - Z.of_nat n mod n0.
Proof.
  intros Hn Hp. induction n as [|n [IHc IHn]].
  - cbn [at_tick]. unfold reset. cbn [clk clk_count]. rewrite Hp.
    rewrite wt_reset_nonneg by lia.
    change (Z.of_nat 0) with 0. rewrite Zmod_0_l, Zdiv_0_l. split; [reflexivity|lia].
  - cbn [at_tick]. unfold tick. cbn [clk clk_count]. rewrite IHc, IHn, Hp.
    pose proof (Z.mod_pos_bound (Z.of_nat n) n0 ltac:(lia)) as B.
    rewrite wt_tick_nonneg by lia.
    replace (Z.of_nat (S n)) with (Z.of_nat n + 1) by lia.
    unfold wt_done.
    destruct (Z.eq_dec (Z.of_nat n mod n0) (n0 - 1)) as [E|E].
    + destruct (mod_succ_wrap (Z.of_nat n) n0 ltac:(lia) ltac:(lia) E) as [M D].
      rewrite M, D.
      destruct (Z.eqb_spec (n0 - 1 - Z.of_nat n mod n0) 0); [|lia].
      cbn [negb]. split; [|lia].
      rewrite Z.odd_add. simpl. now destruct (Z.odd (Z.of_nat n / n0)).
    + destruct (mod_succ_step (Z.of_nat n) n0 ltac:(lia) ltac:(lia) E) as [M D].
      rewrite M, D.
      destruct (Z.eqb_spec (n0 - 1 - Z.of_nat n mod n0) 0); [lia|].
      cbn [negb].
      destruct (Z.eqb_spec (n0 - 1 - Z.of_nat n mod n0) 0); [lia|].
      split; [reflexivity|lia].
Qed.

(** The gate: the repeat timer restarts every [r + 1] ticks, and the burst
    timer runs down once per restart. *)
Lemma gate_closed (b r : Z) (n : nat) :
  0 <= b -> 0 <= r ->
  burst_timer p = WaitTimer_init b -> repeat_timer p = WaitTimer_init r ->
  burst_count (at_tick p n) = Z.max 0 (b - Z.of_nat n mod (r + 1)) /\
  repeat_count (at_tick p n) = r - Z.of_nat n mod (r + 1).
Proof.
  intros Hb Hr Hpb Hpr. induction n as [|n [IHb IHr]].
  - cbn [at_tick]. unfold reset. cbn [burst_count repeat_count].
    rewrite Hpb, Hpr, !wt_reset_nonneg by lia.
    change (Z.of_nat 0) with 0. rewrite Zmod_0_l. lia.
  - cbn [at_tick]. unfold tick. cbn [burst_count repeat_count].
    rewrite IHb, IHr, Hpb, Hpr.
    pose proof (Z.mod_pos_bound (Z.of_nat n) (r + 1) ltac:(lia)) as B.
    rewrite !wt_tick_nonneg by lia.
    replace (Z.of_nat (S n)) with (Z.of_nat n + 1) by lia.
    unfold wt_done.
    destruct (Z.eq_dec (Z.of_nat n mod (r + 1)) (r + 1 - 1)) as [E|E].
    + destruct (mod_succ_wrap (Z.of_nat n) (r + 1) ltac:(lia) ltac:(lia) E) as [M _].
      rewrite M.
      destruct (Z.eqb_spec (r - Z.of_nat n mod (r + 1)) 0); [|lia].
      cbn [negb]. lia.
    + destruct (mod_succ_step (Z.of_nat n) (r + 1) ltac:(lia) ltac:(lia) E) as [M _].
      rewrite M.
      destruct (Z.eqb_spec (r - Z.of_nat n mod (r + 1)) 0); [lia|].
      cbn [negb].
      destruct (Z.eqb_spec (r - Z.of_nat n mod (r + 1)) 0); [lia|].
      destruct (Z.eqb_spec (Z.max 0 (b - Z.of_nat n mod (r + 1))) 0); lia.
Qed.

(** [idle] is low on the first [b] ticks of every [r + 1] ticks. *)
Lemma idle_closed (b r : Z) :
  0 <= b -> 0 <= r ->
  burst_timer p = WaitTimer_init b -> repeat_timer p = WaitTimer_init r ->
  idle_pattern p b (r + 1).
Proof.
  intros Hb Hr Hpb Hpr n. unfold idle, wt_done.
  destruct (gate_closed b r n Hb Hr Hpb Hpr) as [-> _].
  pose proof (Z.mod_pos_bound (Z.of_nat n) (r + 1) ltac:(lia)).
  destruct (Z.eqb_spec (Z.max 0 (b - Z.of_nat n mod (r + 1))) 0);
    destruct (Z.leb_spec b (Z.of_nat n mod (r + 1))); lia.
Qed.

End Generator.

(* ------------------------------------------------------------------ *)
(** * The generator as constructed *)

Lemma tx_init_inv (sys_clk_freq lfps_clk_freq : float) (p : LFPSTransmitter.t) :
  LFPSTransmitter.init sys_clk_freq lfps_clk_freq = Ok p ->
  fge lfps_clk_freq lfps_clk_freq_min = true /\
  fle lfps_clk_freq lfps_clk_freq_max = true /\
  exists q n b r,
    fdiv sys_clk_freq (fmul (of_Z 2) lfps_clk_freq) = Ok q /\
    ceil q = Ok n /\
    ns_to_cycles sys_clk_freq (dec 10 7) = Ok b /\
    ns_to_cycles sys_clk_freq (dec 100 7) = Ok r /\
    p = {| LFPSTransmitter.clk_timer := WaitTimer_init (n - 1);
           LFPSTransmitter.burst_timer := WaitTimer_init b;
           LFPSTransmitter.repeat_timer := WaitTimer_init r |}.
Proof.
  unfold LFPSTransmitter.init. intros H.
  apply bind_ok in H as ([] & Hmin & H). apply assert_ok in Hmin.
  apply bind_ok in H as ([] & Hmax & H). apply assert_ok in Hmax.
  apply bind_ok in H as (q & Hq & H).
  apply bind_ok in H as (n & Hn & H).
  apply bind_ok in H as (tb & Htb & H). apply Ok_inj in Htb. subst tb.
  apply bind_ok in H as (b & Hb & H).
  apply bind_ok in H as (tr & Htr & H). apply Ok_inj in Htr. subst tr.
  apply bind_ok in H as (r & Hr & H).
  injection H as <-.
  split; [exact Hmin|]. split; [exact Hmax|].
  exists q, n, b, r. repeat split; assumption.
Qed.

(** The [idle] output of every constructed transmitter whose tick counts
    are not negative: low on the first [burst_cycles] ticks of every
    [repeat_cycles + 1] ticks. *)
Lemma tx_init_idle_pattern
    (sys_clk_freq lfps_clk_freq : float) (p : LFPSTransmitter.t) (b r : Z) :
  LFPSTransmitter.init sys_clk_freq lfps_clk_freq = Ok p ->
  ns_to_cycles sys_clk_freq (dec 10 7) = Ok b ->
  ns_to_cycles sys_clk_freq (dec 100 7) = Ok r ->
  0 <= b -> 0 <= r ->
  idle_pattern p b (r + 1).
Proof.
  intros Hp Eb Er Hb Hr.
  destruct (tx_init_inv _ _ _ Hp) as (_ & _ & q & n & b' & r' & _ & _ & Eb' & Er' & ->).
  rewrite Eb in Eb'. apply Ok_inj in Eb'. subst b'.
  rewrite Er in Er'. apply Ok_inj in Er'. subst r'.
  now apply idle_closed.
Qed.

Example tx_init_125MHz :
  LFPSTransmitter.init (of_Z 125000000) (of_Z 25000000) = Ok tx_125MHz.
Proof. vm_compute. reflexivity. Qed.

(** C6, as the code has it: the oscillator bit is advanced every [N] ticks
    where [N = ceil(sys_clk_freq / (2 * lfps_clk_freq))] (the timer is
    loaded with [N - 1]); with 500 MHz and 25 MHz, [N = 10]. *)
Theorem oscillator_flips_every_ceil
    (sys_clk_freq lfps_clk_freq q : float) (N : Z) (p : LFPSTransmitter.t) :
  LFPSTransmitter.init sys_clk_freq lfps_clk_freq = Ok p ->
  fdiv sys_clk_freq (fmul (of_Z 2) lfps_clk_freq) = Ok q ->
  ceil q = Ok N ->
  1 <= N ->
  flips_every p N.
Proof.
  intros Hp Hq HN H1 n.
  destruct (tx_init_inv _ _ _ Hp) as (_ & _ & q' & n' & b & r & Hq' & Hn' & _ & _ & ->).
  rewrite Hq in Hq'. injection Hq' as <-.
  rewrite HN in Hn'. injection Hn' as <-.
  now apply osc_closed.
Qed.

Lemma oscillator_flips_every_ceil_witness :
  flips_every
    {| LFPSTransmitter.clk_timer := WaitTimer_init 9;
       LFPSTransmitter.burst_timer := WaitTimer_init 500;
       LFPSTransmitter.repeat_timer := WaitTimer_init 5000 |} 10.
Proof.
  apply (oscillator_flips_every_ceil (of_Z 500000000) (of_Z 25000000) (of_Z 10) 10);
    [vm_compute; reflexivity|vm_compute; reflexivity|vm_compute; reflexivity|lia].
Defined.

(** C6 as stated fails: with a 100 MHz clock and a 30 MHz LFPS clock the
    quotient is 1.66..., its floor is 1, and the oscillator bit does not
    flip on every tick (its timer is loaded with [ceil(1.66...) - 1 = 1],
    so it flips every 2 ticks). *)
Lemma oscillator_not_floor :
  exists p q N,
    LFPSTransmitter.init (of_Z 100000000) (of_Z 30000000) = Ok p /\
    fdiv (of_Z 100000000) (fmul (of_Z 2) (of_Z 30000000)) = Ok q /\
    floor q = Ok N /\
    ~ flips_every p N.
Proof.
  eexists. eexists. eexists.
  split; [vm_compute; reflexivity|].
  split; [vm_compute; reflexivity|].
  split; [vm_compute; reflexivity|].
  intros H. specialize (H 1%nat). vm_compute in H. discriminate.
Qed.

(** C2 at 125 MHz: the generator's [idle] is low on the first 125 ticks of
    every 1251 ticks, not of every 1250 ([repeat_ticks]): the repeat timer is
    loaded with [repeat_cycles] and takes [repeat_cycles + 1] ticks per
    round.  On tick 1250, which the claim counts as tick 0 of the second
    period, [idle] is still asserted. *)
Theorem generator_idle_period_125MHz :
  LFPSTransmitter.init (of_Z 125000000) (of_Z 25000000) = Ok tx_125MHz /\
  idle_pattern tx_125MHz 125 1251 /\
  LFPSTransmitter.idle (LFPSTransmitter.at_tick tx_125MHz 1250) = true /\
  ~ idle_pattern tx_125MHz 125 1250.
Proof.
  split; [exact tx_init_125MHz|].
  assert (idle_pattern tx_125MHz 125 1251) as H.
  { apply (idle_closed tx_125MHz 125 1250); (lia || reflexivity). }
  split; [exact H|]. split.
  - rewrite H. reflexivity.
  - intros H'. specialize (H' 1250%nat). rewrite H in H'. vm_compute in H'.
    discriminate.
Qed.

(** C3 at 125 MHz: the generator wired to the detector.  Over the first ten
    generator rounds (12510 ticks) the detector pulses four times, on ticks
    2504, 5006, 7508 and 10010: once every two rounds, because a round of
    the generator lasts 1251 ticks while the detector times 1250. *)
Theorem link_pulses_125MHz :
  LFPSTransmitter.init (of_Z 125000000) (of_Z 25000000) = Ok tx_125MHz /\
  LFPSReceiver.init (of_Z 125000000) = Ok rx_125MHz /\
  pulse_ticks 0 (link_run tx_125MHz rx_125MHz (Z.to_nat 12510) (link_reset tx_125MHz)) =
    [2504; 5006; 7508; 10010].
Proof.
  split; [exact tx_init_125MHz|]. split; [exact init_125MHz|].
  vm_compute. reflexivity.
Qed.

(** With a repeat timer of exactly [repeat_cycles] ticks per round the
    same link pulses once per round after it has locked (rounds of 1250
    ticks): the missing pulses come from the extra tick of the generator. *)
Lemma link_pulses_exact_period :
  pulse_ticks 0 (link_run tx_125MHz_exact rx_125MHz (Z.to_nat 12510)
                   (link_reset tx_125MHz_exact)) =
    [2503; 3753; 5003; 6253; 7503; 8753; 10003; 11253; 12503] /\
  idle_pattern tx_125MHz_exact 125 1250.
Proof.
  split; [vm_compute; reflexivity|].
  apply (idle_closed tx_125MHz_exact 125 1249); (lia || reflexivity).
Qed.

(* ------------------------------------------------------------------ *)
(** * The table of LFPS definitions *)

Lemma lfps_clk_freq_import :
  fdiv (of_Z 1) (dec 100 9) = Ok lfps_clk_freq_min /\
  fdiv (of_Z 1) (dec 20 9) = Ok lfps_clk_freq_max /\
  lfps_clk_freq_min = of_Z 10000000 /\
  lfps_clk_freq_max = of_Z 50000000.
Proof. repeat split; vm_compute; reflexivity. Qed.

Lemma LFPSTiming_init_bounds (typ : option float) (lo hi : float) :
  LFPSTiming_init typ (Some lo) (Some hi) = Ok (timing typ lo hi).
Proof. reflexivity. Qed.

Lemma LFPSTiming_init_missing (typ mn mx : option float) :
  mn = None \/ mx = None -> LFPSTiming_init typ mn mx = Raise AssertionError.
Proof. intros [->| ->]; [reflexivity|]. destruct mn; reflexivity. Qed.

(** C10: whatever the arguments, the [cycles] field of a constructed [LFPS]
    is [None]; [PingLFPS], constructed with [cycles=2], has [cycles = None]. *)
Theorem LFPS_cycles_discarded :
  (forall b r c, cycles (LFPS_init b r c) = None) /\
  PingLFPS = LFPS_init PingLFPSBurst (Some PingLFPSRepeat) (Some 2) /\
  cycles PingLFPS = None.
Proof. repeat split. Qed.

(* ------------------------------------------------------------------ *)
(** * Further properties of the detector *)

Section DetectorWindow.

Import LFPSReceiver.

Variable p : LFPSReceiver.t.
Variables b r : Z.
Hypothesis Hp : of_cycles b r = Ok p.
Hypothesis Hb : 1 <= b.
Hypothesis Hbr : b < r.

(** Waiting in the Burst phase with [found] latched while the line is
    still idle: no pulse, [found] is kept. *)
Lemma run_burst_wait (n : nat) (c : Z) :
  Z.of_nat n <= c < r ->
  run p {| state := TBURST; count := c; found := true |} (List.repeat true n) =
  (List.repeat false n,
   {| state := TBURST; count := c - Z.of_nat n; found := true |}).
Proof.
  revert c. induction n as [|n IH]; intros c Hn.
  - simpl. now rewrite Z.sub_0_r.
  - cbn [List.repeat run].
    rewrite tick_burst_count with (b := b) (r := r) by (try assumption; lia).
    cbn [andb negb]. rewrite IH by lia.
    replace (c - 1 - Z.of_nat n) with (c - Z.of_nat (S n)) by lia.
    reflexivity.
Qed.


(** A burst that starts more than [b] ticks late, but before a second gap
    has been counted, is taken for an early one: no pulse, [found]
    cleared. *)
Lemma run_too_late_burst (d : nat) (f : bool) :
  b < Z.of_nat d -> Z.of_nat d < r ->
  run p {| state := TREPEAT; count := 0; found := f |}
        (List.repeat true d ++ [false]) =
  (List.repeat false (S d),
   {| state := TBURST; count := b - 1; found := false |}).
Proof.
  intros Hd1 Hd2.
  remember (Z.to_nat (b - 1)) as nb eqn:Enb.
  remember (Z.to_nat (Z.of_nat d - b - 1)) as k eqn:Ek.
  assert (d = S nb + S k)%nat as Ed by lia.
  rewrite Ed. clear Ed.
  rewrite repeat_app, <- app_assoc, run_app.
  cbn [List.repeat run].
  rewrite tick_repeat_done with (b := b) (r := r) by (try assumption; lia).
  replace (b - 1) with (Z.of_nat nb) at 1 by lia.
  rewrite run_burst_wait by lia.
  rewrite Z.sub_diag.
  cbn [app run].
  rewrite tick_burst_to_repeat with (b := b) (r := r) by (try assumption; lia).
  rewrite run_app.
  rewrite run_repeat_partial with (b := b) (r := r) by (try assumption; lia).
  cbn [run].
  rewrite tick_repeat_early with (b := b) (r := r) by (try assumption; lia).
  unfold polling. cbn [state found andb negb].
  change (false :: List.repeat false nb ++ false :: List.repeat false k ++ [false])
    with (List.repeat false (S nb) ++ List.repeat false (S k) ++ List.repeat false 1).
  rewrite <- !repeat_app.
  replace (S nb + (S k + 1))%nat with (S (S nb + S k)) by lia.
  reflexivity.
Qed.

(** The samples between the first tick of a burst and the tick on which
    its count runs out are not looked at. *)
Lemma run_any_burst (l : list bool) :
  Z.of_nat (length l) = b - 1 ->
  run p reset (false :: l ++ List.repeat true (Z.to_nat (r - b))) =
  (List.repeat false (Z.to_nat r), {| state := TREPEAT; count := 0; found := false |}).
Proof.
  intros Hl. cbn [run]. unfold reset.
  rewrite tick_burst_reload with (b := b) (r := r) by (try assumption; lia).
  rewrite run_app.
  rewrite <- Hl.
  rewrite run_burst_countdown with (b := b) (r := r) by (try assumption; lia).
  rewrite run_gap with (b := b) (r := r) by (try assumption; lia).
  unfold polling. cbn [state found andb].
  rewrite <- repeat_app.
  replace (Z.to_nat r) with (S (length l + Z.to_nat (r - b)))%nat by lia.
  reflexivity.
Qed.

(** After an early re-burst the detector is armed again by the rest of a
    well-timed period. *)
Lemma run_rearm :
  run p {| state := TBURST; count := b - 1; found := false |}
        (List.repeat false (Z.to_nat (b - 1)) ++ List.repeat true (Z.to_nat (r - b))) =
  (List.repeat false (Z.to_nat (r - 1)),
   {| state := TREPEAT; count := 0; found := false |}).
Proof.
  rewrite run_app.
  replace (b - 1) with (Z.of_nat (Z.to_nat (b - 1))) at 1 by lia.
  rewrite run_burst_countdown with (b := b) (r := r)
    by (rewrite ?repeat_length; try assumption; lia).
  rewrite run_gap with (b := b) (r := r) by (try assumption; lia).
  rewrite <- repeat_app.
  replace (Z.to_nat (r - 1)) with (Z.to_nat (b - 1) + Z.to_nat (r - b))%nat by lia.
  reflexivity.
Qed.

End DetectorWindow.


Lemma run_low_from_burst (p : LFPSReceiver.t) (n : nat) (s : LFPSReceiver.regs) :
  LFPSReceiver.state s = LFPSReceiver.TBURST -> LFPSReceiver.found s = false ->
  fst (LFPSReceiver.run p s (List.repeat false n)) = List.repeat false n.
Proof.
  revert s. induction n as [|n IH]; intros [st c f] Hs Hf; [reflexivity|].
  simpl in Hs, Hf. subst st f. cbn [List.repeat LFPSReceiver.run].
  destruct (LFPSReceiver.run p _ (List.repeat false n)) as [o s'] eqn:E.
  cbn [fst]. f_equal.
  replace o with (fst (LFPSReceiver.run p
    (LFPSReceiver.tick p
       {| LFPSReceiver.state := LFPSReceiver.TBURST;
          LFPSReceiver.count := c; LFPSReceiver.found := false |} false)
    (List.repeat false n))) by (rewrite E; reflexivity).
  apply IH; unfold LFPSReceiver.tick; simpl; destruct (c =? 0); reflexivity.
Qed.

Lemma run_high_no_pulse (p : LFPSReceiver.t) (n : nat) (s : LFPSReceiver.regs) :
  fst (LFPSReceiver.run p s (List.repeat true n)) = List.repeat false n.
Proof.
  revert s. induction n as [|n IH]; intros s; [reflexivity|].
  cbn [List.repeat LFPSReceiver.run].
  specialize (IH (LFPSReceiver.tick p s true)).
  destruct (LFPSReceiver.run p (LFPSReceiver.tick p s true) (List.repeat true n)) as [o s'].
  cbn [fst] in *. rewrite IH. f_equal.
  unfold LFPSReceiver.polling. destruct (LFPSReceiver.state s); [|reflexivity].
  now rewrite andb_false_r.
Qed.

(** X1: a [polling] pulse lasts one tick.  When [polling] is asserted the
    input is low and the machine is in the Burst phase; the same clock edge
    clears [found], so on the next tick [polling] is low whatever the
    input. *)
Theorem polling_is_one_tick
    (p : LFPSReceiver.t) (s : LFPSReceiver.regs) (idle : bool) :
  LFPSReceiver.polling s idle = true ->
  idle = false /\
  LFPSReceiver.state s = LFPSReceiver.TBURST /\
  LFPSReceiver.found (LFPSReceiver.tick p s idle) = false /\
  forall idle', LFPSReceiver.polling (LFPSReceiver.tick p s idle) idle' = false.
Proof.
  destruct s as [st c f]. unfold LFPSReceiver.polling at 1. simpl.
  destruct st; [|discriminate]. intros H.
  apply andb_true_iff in H as [-> Hi]. destruct idle; [discriminate|].
  assert (LFPSReceiver.found
            (LFPSReceiver.tick p
               {| LFPSReceiver.state := LFPSReceiver.TBURST;
                  LFPSReceiver.count := c; LFPSReceiver.found := true |} false) = false) as Hf.
  { unfold LFPSReceiver.tick. simpl. destruct (c =? 0); reflexivity. }
  repeat split; try assumption.
  intros idle'. unfold LFPSReceiver.polling.
  rewrite Hf. now destruct (LFPSReceiver.state _).
Qed.

Lemma polling_is_one_tick_witness :
  false = false /\
  LFPSReceiver.state
    {| LFPSReceiver.state := LFPSReceiver.TBURST;
       LFPSReceiver.count := 5; LFPSReceiver.found := true |} = LFPSReceiver.TBURST /\
  LFPSReceiver.found
    (LFPSReceiver.tick rx_125MHz
       {| LFPSReceiver.state := LFPSReceiver.TBURST;
          LFPSReceiver.count := 5; LFPSReceiver.found := true |} false) = false /\
  forall idle',
    LFPSReceiver.polling
      (LFPSReceiver.tick rx_125MHz
         {| LFPSReceiver.state := LFPSReceiver.TBURST;
            LFPSReceiver.count := 5; LFPSReceiver.found := true |} false) idle' = false.
Proof.
  apply (polling_is_one_tick rx_125MHz
           {| LFPSReceiver.state := LFPSReceiver.TBURST;
              LFPSReceiver.count := 5; LFPSReceiver.found := true |} false).
  reflexivity.
Defined.

(** X2: without a gap there is no detection.  A line that bursts without
    interruption after reset (input always low) never gives a pulse, and
    from any state a line that stays idle (input always high) never gives
    one: whatever the tick counts of the receiver. *)
Theorem no_pulse_without_edges (p : LFPSReceiver.t) (n : nat) :
  fst (LFPSReceiver.run p LFPSReceiver.reset (List.repeat false n)) =
    List.repeat false n /\
  forall s, fst (LFPSReceiver.run p s (List.repeat true n)) = List.repeat false n.
Proof.
  split.
  - now apply run_low_from_burst.
  - intros s. apply run_high_no_pulse.
Qed.

(** X3: the length of a burst is not checked.  For a constructed receiver
    with [burst_cycles >= 2], a first period that is low on its first tick
    only needs to be idle again from tick [burst_cycles] on: whatever the
    input does on the ticks in between, the period arms the detector, and a
    following well-timed period gives its pulse. *)
Theorem burst_length_not_checked
    (sys_clk_freq : float) (p : LFPSReceiver.t) (l : list bool) :
  valid sys_clk_freq = true ->
  LFPSReceiver.init sys_clk_freq = Ok p ->
  let b := LFPSReceiver.burst_cycles p in
  let r := LFPSReceiver.repeat_cycles p in
  2 <= b ->
  Z.of_nat (length l) = b - 1 ->
  fst (LFPSReceiver.run p LFPSReceiver.reset
         ((false :: l ++ List.repeat true (Z.to_nat (r - b))) ++ cycle b r)) =
  List.repeat false (Z.to_nat r) ++ armed_cycle_out r.
Proof.
  intros Hv Hi b r Hb2 Hl.
  destruct (rx_init_cycles_order _ _ Hv Hi) as [Hb Hbr].
  destruct (rx_init_inv _ _ Hi) as (_ & _ & Hp).
  fold b r in Hb, Hbr, Hp.
  rewrite (run_app p).
  rewrite run_any_burst with (b := b) (r := r) by (try assumption; lia).
  rewrite run_armed_cycle with (b := b) (r := r) by (try assumption; lia).
  reflexivity.
Qed.

Lemma burst_length_not_checked_witness :
  let b := LFPSReceiver.burst_cycles rx_125MHz in
  let r := LFPSReceiver.repeat_cycles rx_125MHz in
  fst (LFPSReceiver.run rx_125MHz LFPSReceiver.reset
         ((false :: List.repeat true (Z.to_nat 124)
             ++ List.repeat true (Z.to_nat (r - b))) ++ cycle b r)) =
  List.repeat false (Z.to_nat r) ++ armed_cycle_out r.
Proof.
  apply (burst_length_not_checked (of_Z 125000000) rx_125MHz
           (List.repeat true (Z.to_nat 124)));
    vm_compute; (reflexivity || discriminate).
Defined.



(** X5: a burst that is more than [burst_cycles] ticks late is not
    detected.  For a constructed receiver, after one well-timed period from
    reset, a burst that starts [d] ticks late with
    [burst_cycles < d < repeat_cycles] gives no pulse and leaves the machine
    in the Burst phase with [found] cleared. *)
Theorem too_late_burst_rejected
    (sys_clk_freq : float) (p : LFPSReceiver.t) (d : nat) :
  valid sys_clk_freq = true ->
  LFPSReceiver.init sys_clk_freq = Ok p ->
  let b := LFPSReceiver.burst_cycles p in
  let r := LFPSReceiver.repeat_cycles p in
  b < Z.of_nat d -> Z.of_nat d < r ->
  LFPSReceiver.run p LFPSReceiver.reset
    (cycle b r ++ List.repeat true d ++ [false]) =
  (List.repeat false (Z.to_nat r + S d),
   {| LFPSReceiver.state := LFPSReceiver.TBURST;
      LFPSReceiver.count := b - 1; LFPSReceiver.found := false |}).
Proof.
  intros Hv Hi b r Hd1 Hd2.
  destruct (rx_init_cycles_order _ _ Hv Hi) as [Hb Hbr].
  destruct (rx_init_inv _ _ Hi) as (_ & _ & Hp).
  fold b r in Hb, Hbr, Hp.
  rewrite (run_app p).
  rewrite run_first_cycle with (b := b) (r := r) by (try assumption; lia).
  rewrite run_too_late_burst with (b := b) (r := r) by (try assumption; lia).
  now rewrite repeat_app.
Qed.

Lemma too_late_burst_rejected_witness :
  let b := LFPSReceiver.burst_cycles rx_125MHz in
  let r := LFPSReceiver.repeat_cycles rx_125MHz in
  LFPSReceiver.run rx_125MHz LFPSReceiver.reset
    (cycle b r ++ List.repeat true 200 ++ [false]) =
  (List.repeat false (Z.to_nat r + S 200),
   {| LFPSReceiver.state := LFPSReceiver.TBURST;
      LFPSReceiver.count := b - 1; LFPSReceiver.found := false |}).
Proof.
  apply (too_late_burst_rejected (of_Z 125000000) rx_125MHz 200);
    vm_compute; (reflexivity || discriminate || lia).
Defined.

(** X6: recovery after an early re-burst.  For a constructed receiver with
    [burst_cycles >= 2], when a burst comes early ([h] high ticks with
    [1 <= h < repeat_cycles - burst_cycles]), the rest of that burst and a
    full gap arm the detector again, and the next well-timed period gives
    exactly one pulse, on its second tick; nothing is output before. *)
Theorem rearm_after_early_burst
    (sys_clk_freq : float) (p : LFPSReceiver.t) (h : nat) (f : bool) :
  valid sys_clk_freq = true ->
  LFPSReceiver.init sys_clk_freq = Ok p ->
  let b := LFPSReceiver.burst_cycles p in
  let r := LFPSReceiver.repeat_cycles p in
  2 <= b -> (1 <= h)%nat -> Z.of_nat h < r - b ->
  fst (LFPSReceiver.run p
         {| LFPSReceiver.state := LFPSReceiver.TBURST;
            LFPSReceiver.count := 0; LFPSReceiver.found := f |}
         ((List.repeat true h ++ [false])
          ++ (List.repeat false (Z.to_nat (b - 1))
              ++ List.repeat true (Z.to_nat (r - b)))
          ++ cycle b r)) =
  List.repeat false (S h) ++ List.repeat false (Z.to_nat (r - 1)) ++ armed_cycle_out r.
Proof.
  intros Hv Hi b r Hb2 Hh Hlt.
  destruct (rx_init_cycles_order _ _ Hv Hi) as [Hb Hbr].
  destruct (rx_init_inv _ _ Hi) as (_ & _ & Hp).
  fold b r in Hb, Hbr, Hp.
  rewrite (run_app p).
  rewrite run_early_reburst with (b := b) (r := r) by (try assumption; lia).
  rewrite (run_app p).
  rewrite run_rearm with (b := b) (r := r) by (try assumption; lia).
  rewrite run_armed_cycle with (b := b) (r := r) by (try assumption; lia).
  reflexivity.
Qed.

Lemma rearm_after_early_burst_witness :
  let b := LFPSReceiver.burst_cycles rx_125MHz in
  let r := LFPSReceiver.repeat_cycles rx_125MHz in
  fst (LFPSReceiver.run rx_125MHz
         {| LFPSReceiver.state := LFPSReceiver.TBURST;
            LFPSReceiver.count := 0; LFPSReceiver.found := true |}
         ((List.repeat true 10 ++ [false])
          ++ (List.repeat false (Z.to_nat (b - 1))
              ++ List.repeat true (Z.to_nat (r - b)))
          ++ cycle b r)) =
  List.repeat false (S 10) ++ List.repeat false (Z.to_nat (r - 1)) ++ armed_cycle_out r.
Proof.
  apply (rearm_after_early_burst (of_Z 125000000) rx_125MHz 10 true);
    vm_compute; (reflexivity || discriminate || lia).
Defined.

(* ------------------------------------------------------------------ *)
(** * The receiver from its raw pin *)

Lemma resync_cons (m : MultiReg) (x : bool) (rest : list bool) :
  resync m (x :: rest) = MultiReg_o m :: resync (MultiReg_tick x m) rest.
Proof. reflexivity. Qed.

Lemma run_raw_resync (p : LFPSReceiver.t) (raws : list bool) :
  forall m s, run_raw p m s raws = fst (LFPSReceiver.run p s (resync m raws)).
Proof.
  induction raws as [|x rest IH]; intros m s; [reflexivity|].
  rewrite resync_cons. cbn [run_raw LFPSReceiver.run].
  rewrite IH.
  destruct (LFPSReceiver.run p (LFPSReceiver.tick p s (MultiReg_o m))
              (resync (MultiReg_tick x m) rest)).
  reflexivity.
Qed.

Lemma nth_firstn_lt {A : Type} (l : list A) (n k : nat) (d : A) :
  (n < k)%nat -> nth n (firstn k l) d = nth n l d.
Proof.
  revert n k. induction l as [|a l IH]; intros n k H.
  - now rewrite firstn_nil.
  - destruct k; [lia|]. destruct n; [reflexivity|].
    cbn [firstn nth]. apply IH. lia.
Qed.

(** X7: the whole receiver is its detector on the input delayed by two
    ticks.  The [polling] outputs of the receiver driven from its raw pin
    are those of the state machine run on the synchroniser's two registers
    followed by the raw samples; after reset the detector first sees two low
    samples, and sample [n] of the raw input reaches it on tick [n + 2]
    unchanged. *)
Theorem receiver_sees_delayed_input
    (p : LFPSReceiver.t) (m : MultiReg) (s : LFPSReceiver.regs) (raws : list bool) :
  run_raw p m s raws = fst (LFPSReceiver.run p s (resync m raws)) /\
  length (resync m raws) = length raws /\
  resync MultiReg_reset raws = firstn (length raws) (false :: false :: raws) /\
  forall n, (n + 2 < length raws)%nat ->
            nth (n + 2) (resync m raws) false = nth n raws false.
Proof.
  split; [apply run_raw_resync|]. split; [|split; [reflexivity|]].
  - unfold resync. rewrite length_firstn. simpl. lia.
  - intros n Hn. unfold resync. rewrite nth_firstn_lt by lia.
    replace (n + 2)%nat with (S (S n)) by lia. reflexivity.
Qed.

Lemma receiver_sees_delayed_input_witness :
  run_raw rx_125MHz MultiReg_reset LFPSReceiver.reset [true; false; true; true] =
    fst (LFPSReceiver.run rx_125MHz LFPSReceiver.reset
           (resync MultiReg_reset [true; false; true; true])) /\
  length (resync MultiReg_reset [true; false; true; true]) =
    length [true; false; true; true] /\
  resync MultiReg_reset [true; false; true; true] =
    firstn (length [true; false; true; true])
           (false :: false :: [true; false; true; true]) /\
  forall n, (n + 2 < length [true; false; true; true])%nat ->
            nth (n + 2) (resync MultiReg_reset [true; false; true; true]) false =
            nth n [true; false; true; true] false.
Proof.
  exact (receiver_sees_delayed_input rx_125MHz MultiReg_reset LFPSReceiver.reset
           [true; false; true; true]).
Defined.

(* ------------------------------------------------------------------ *)
(** * Which clocks a receiver can be built for *)

Lemma positive_magnitude_ge (x : float) (mk : positive) (ek : Z) :
  valid x = true -> is_finite x = true ->
  Zdigits2 (Zpos mk) = 53 -> -1074 < ek ->
  fle (S754_finite false mk ek) x = true ->
  exists m e, x = S754_finite false m e /\ 53 + ek <= Zdigits2 (Zpos m) + e.
Proof.
  intros Hv Hf Hk Hek. unfold fle, SFleb, SFcompare.
  destruct x as [s|s| |s m e]; try discriminate.
  destruct s; [discriminate|]. intros H.
  destruct (valid_finite_bounds false m e Hv) as (Hd & Hb & Hn).
  exists m, e. split; [reflexivity|].
  destruct (Z.compare_spec ek e); try discriminate; lia.
Qed.

Lemma positive_magnitude_lt (x : float) (mk : positive) (ek : Z) :
  valid x = true ->
  Zdigits2 (Zpos mk) = 53 ->
  SFltb x (S754_finite false mk ek) = true ->
  is_zero x = true \/ sign x = true \/
  exists m e, x = S754_finite false m e /\
              (Zdigits2 (Zpos m) + e < 53 + ek \/
               (Zdigits2 (Zpos m) + e = 53 + ek /\ (Zpos m < Zpos mk))).
Proof.
  intros Hv Hk. unfold SFltb, SFcompare.
  destruct x as [s|s| |s m e]; try discriminate.
  - intros _. now left.
  - destruct s; [intros _; right; now left|discriminate].
  - destruct s; [intros _; right; now left|]. intros H.
    destruct (valid_finite_bounds false m e Hv) as (Hd & Hb & Hn).
    right. right. exists m, e. split; [reflexivity|].
    destruct (Z.compare_spec e ek) as [E|E|E]; try discriminate.
    + subst ek. change (Pos.compare_cont Eq m mk) with (Pos.compare m mk) in H.
      destruct (Pos.compare_spec m mk); try discriminate.
      destruct (Z.eq_dec (Zdigits2 (Zpos m)) 53); [right; split; lia|left; lia].
    + left. lia.
Qed.

Lemma of_Z_2_18 : of_Z 262144 = S754_finite false 4503599627370496 (-34).
Proof. vm_compute. reflexivity. Qed.

Lemma of_Z_2_16 : of_Z 65536 = S754_finite false 4503599627370496 (-36).
Proof. vm_compute. reflexivity. Qed.

Lemma rx_init_large (sys_clk_freq : float) :
  valid sys_clk_freq = true -> is_finite sys_clk_freq = true ->
  fle (of_Z 262144) sys_clk_freq = true ->
  exists p, LFPSReceiver.init sys_clk_freq = Ok p.
Proof.
  intros Hv Hf Hle. rewrite of_Z_2_18 in Hle.
  destruct (positive_magnitude_ge sys_clk_freq 4503599627370496 (-34)
              Hv Hf eq_refl ltac:(lia) Hle)
    as (m & e & -> & HM).
  destruct (valid_finite_bounds false m e Hv) as (Hd & Hb & _).
  destruct (ns_to_cycles_small 4722366482869645 (-72) (S754_finite false m e)
              ltac:(simpl; lia) ltac:(lia) Hv Hf) as (b & Eb & _).
  destruct (product_normal 5902958103587057 m (-69) e eq_refl ltac:(lia) Hv ltac:(lia))
    as (m5 & e5 & E5 & L5 & _).
  destruct (ceil_finite (S754_finite false m5 e5) eq_refl) as (r & Er & _).
  pose proof (ceil_ge_pow2 m5 e5 r 1 Er ltac:(lia)) as Lr.
  assert (2 ^ (1 - e5) <= Zpos m5) as H1.
  { apply Z.le_trans with (2 ^ (Zdigits2 (Zpos m) + e + 51 + -69 - e5)); [|exact L5].
    apply Z.pow_le_mono_r; lia. }
  specialize (Lr H1). change (2 ^ 1) with 2 in Lr.
  rewrite <- burst_t_typ_value in Eb.
  assert (ns_to_cycles (S754_finite false m e) (dec 100 7) = Ok r) as Er'.
  { rewrite repeat_t_typ_value. unfold ns_to_cycles. now rewrite E5. }
  unfold LFPSReceiver.init.
  change (burst_t_typ PollingLFPS) with (Ok (dec 10 7)).
  change (repeat_t_typ PollingLFPS) with (Ok (dec 100 7)).
  cbn [Py.bind]. rewrite Eb. cbn [Py.bind]. rewrite Er'. cbn [Py.bind].
  unfold Signal_max, assert.
  destruct (Z.ltb_spec 0 (Z.max b r - 1)); [|lia].
  cbn [Py.bind]. eexists. reflexivity.
Qed.

Lemma rx_init_small (sys_clk_freq : float) :
  valid sys_clk_freq = true -> is_finite sys_clk_freq = true ->
  SFltb sys_clk_freq (of_Z 65536) = true ->
  LFPSReceiver.init sys_clk_freq = Raise AssertionError.
Proof.
  intros Hv Hf Hlt. rewrite of_Z_2_16 in Hlt.
  destruct (positive_magnitude_lt sys_clk_freq 4503599627370496 (-36) Hv eq_refl Hlt)
    as [Hz|[Hs|(m & e & -> & HM)]].
  - apply rx_init_nonpositive; auto.
  - apply rx_init_nonpositive; auto.
  - destruct (valid_finite_bounds false m e Hv) as (Hd & Hb & Hn).
    assert (Zdigits2 (Zpos m) + e <= 16) as HM'.
    { destruct HM as [HM|[HM Hlt']]; [lia|].
      assert (Zdigits2 (Zpos m) <= 52); [|lia].
      rewrite Zdigits2_log2 by lia.
      assert (Z.log2 (Zpos m) < 52); [|lia].
      apply Z.log2_lt_pow2; lia. }
    destruct (product_small 4722366482869645 m (-72) e eq_refl ltac:(lia) Hv ltac:(lia))
      as (b & Eb & Bb).
    destruct (product_small 5902958103587057 m (-69) e eq_refl ltac:(lia) Hv ltac:(lia))
      as (r & Er & Br).
    unfold LFPSReceiver.init.
    change (burst_t_typ PollingLFPS) with (Ok (dec 10 7)).
    change (repeat_t_typ PollingLFPS) with (Ok (dec 100 7)).
    cbn [Py.bind]. unfold ns_to_cycles.
    rewrite burst_t_typ_value, Eb. cbn [Py.bind].
    rewrite repeat_t_typ_value, Er. cbn [Py.bind].
    unfold Signal_max, assert.
    destruct (Z.ltb_spec 0 (Z.max b r - 1)); [lia|reflexivity].
Qed.

Lemma rx_init_positive (sys_clk_freq : float) (p : LFPSReceiver.t) :
  valid sys_clk_freq = true ->
  LFPSReceiver.init sys_clk_freq = Ok p ->
  exists m e, sys_clk_freq = S754_finite false m e.
Proof.
  intros Hv Hp. destruct (rx_init_inv _ _ Hp) as (Eb & _ & _).
  destruct sys_clk_freq as [s|s| |s m e].
  - rewrite (rx_init_nonpositive (S754_zero s) Hv eq_refl (or_introl eq_refl)) in Hp.
    discriminate Hp.
  - rewrite burst_t_typ_value in Eb. vm_compute in Eb. discriminate Eb.
  - rewrite burst_t_typ_value in Eb. vm_compute in Eb. discriminate Eb.
  - destruct s; [|now exists m, e].
    rewrite (rx_init_nonpositive (S754_finite true m e) Hv eq_refl (or_intror eq_refl)) in Hp.
    discriminate Hp.
Qed.

(** X8: what every constructed receiver looks like.  [LFPSReceiver] is
    only constructed for a finite, positive clock frequency that is not
    below 65536 Hz; its two tick counts are the conversions of the Polling
    typical durations, they satisfy [1 <= burst_cycles < repeat_cycles], and
    [count] is wide enough for every value below [repeat_cycles]. *)
Theorem constructed_receiver_shape (sys_clk_freq : float) (p : LFPSReceiver.t) :
  valid sys_clk_freq = true ->
  LFPSReceiver.init sys_clk_freq = Ok p ->
  is_finite sys_clk_freq = true /\
  sign sys_clk_freq = false /\
  SFltb sys_clk_freq (of_Z 65536) = false /\
  ns_to_cycles sys_clk_freq (dec 10 7) = Ok (LFPSReceiver.burst_cycles p) /\
  ns_to_cycles sys_clk_freq (dec 100 7) = Ok (LFPSReceiver.repeat_cycles p) /\
  1 <= LFPSReceiver.burst_cycles p < LFPSReceiver.repeat_cycles p /\
  LFPSReceiver.repeat_cycles p <= 2 ^ LFPSReceiver.count_bits p.
Proof.
  intros Hv Hp.
  destruct (rx_init_positive _ _ Hv Hp) as (m & e & E).
  destruct (rx_init_inv _ _ Hp) as (Eb & Er & Hc).
  destruct (rx_init_cycles_order _ _ Hv Hp) as [Hb Hbr].
  destruct (of_cycles_fields p _ _ Hc Hbr) as (_ & _ & Hw).
  assert (is_finite sys_clk_freq = true) as Hf by (subst; reflexivity).
  repeat split; try assumption; try (subst; reflexivity).
  destruct (SFltb sys_clk_freq (of_Z 65536)) eqn:Hlt; [|reflexivity].
  rewrite (rx_init_small _ Hv Hf Hlt) in Hp. discriminate Hp.
Qed.

Lemma constructed_receiver_shape_witness :
  is_finite (of_Z 125000000) = true /\
  sign (of_Z 125000000) = false /\
  SFltb (of_Z 125000000) (of_Z 65536) = false /\
  ns_to_cycles (of_Z 125000000) (dec 10 7) = Ok (LFPSReceiver.burst_cycles rx_125MHz) /\
  ns_to_cycles (of_Z 125000000) (dec 100 7) = Ok (LFPSReceiver.repeat_cycles rx_125MHz) /\
  1 <= LFPSReceiver.burst_cycles rx_125MHz < LFPSReceiver.repeat_cycles rx_125MHz /\
  LFPSReceiver.repeat_cycles rx_125MHz <= 2 ^ LFPSReceiver.count_bits rx_125MHz.
Proof.
  apply (constructed_receiver_shape (of_Z 125000000) rx_125MHz);
    vm_compute; reflexivity.
Defined.

(** X9: the clocks a receiver can be built for.  For every finite clock
    frequency of at least 262144 Hz (2^18) [LFPSReceiver] is constructed;
    for every finite clock frequency below 65536 Hz (2^16), negative and
    zero ones included, construction fails with an [AssertionError]. *)
Theorem receiver_clock_thresholds (sys_clk_freq : float) :
  valid sys_clk_freq = true -> is_finite sys_clk_freq = true ->
  (fle (of_Z 262144) sys_clk_freq = true ->
   exists p, LFPSReceiver.init sys_clk_freq = Ok p) /\
  (SFltb sys_clk_freq (of_Z 65536) = true ->
   LFPSReceiver.init sys_clk_freq = Raise AssertionError).
Proof.
  intros Hv Hf. split.
  - now apply rx_init_large.
  - now apply rx_init_small.
Qed.

Lemma receiver_clock_thresholds_witness :
  (exists p, LFPSReceiver.init (of_Z 262144) = Ok p) /\
  LFPSReceiver.init (of_Z 65535) = Raise AssertionError.
Proof.
  split.
  - apply (receiver_clock_thresholds (of_Z 262144)); vm_compute; reflexivity.
  - apply (receiver_clock_thresholds (of_Z 65535)); vm_compute; reflexivity.
Defined.

(* ------------------------------------------------------------------ *)
(** * Further properties of the generator *)

Lemma tx_cycles_nonneg (sys_clk_freq lfps_clk_freq : float) (p : LFPSTransmitter.t) :
  valid sys_clk_freq = true -> is_finite sys_clk_freq = true ->
  sign sys_clk_freq = false ->
  LFPSTransmitter.init sys_clk_freq lfps_clk_freq = Ok p ->
  exists q n b r,
    fdiv sys_clk_freq (fmul (of_Z 2) lfps_clk_freq) = Ok q /\
    ceil q = Ok n /\
    ns_to_cycles sys_clk_freq (dec 10 7) = Ok b /\
    ns_to_cycles sys_clk_freq (dec 100 7) = Ok r /\
    0 <= b /\ 0 <= r /\
    LFPSTransmitter.clk_timer p = WaitTimer_init (n - 1) /\
    LFPSTransmitter.burst_timer p = WaitTimer_init b /\
    LFPSTransmitter.repeat_timer p = WaitTimer_init r.
Proof.
  intros Hv Hf Hs Hp.
  destruct (tx_init_inv _ _ _ Hp) as (_ & _ & q & n & b & r & Eq & En & Eb & Er & ->).
  destruct (ns_to_cycles_small 4722366482869645 (-72) sys_clk_freq
              ltac:(simpl; lia) ltac:(lia) Hv Hf) as (b' & Eb' & _ & _ & Pb & _).
  destruct (ns_to_cycles_small 5902958103587057 (-69) sys_clk_freq
              ltac:(simpl; lia) ltac:(lia) Hv Hf) as (r' & Er' & _ & _ & Pr & _).
  rewrite <- burst_t_typ_value in Eb'. rewrite <- repeat_t_typ_value in Er'.
  rewrite Eb in Eb'. apply Ok_inj in Eb'. subst b'.
  rewrite Er in Er'. apply Ok_inj in Er'. subst r'.
  exists q, n, b, r. repeat split; auto.
Qed.

(** X10: the round of every constructed generator.  For a finite, positive
    system clock, the [idle] output of a constructed [LFPSTransmitter] is
    low exactly on the first [burst_cycles] ticks of every
    [repeat_cycles + 1] ticks after reset, where the two counts are the
    conversions of the Polling typical durations. *)
Theorem tx_idle_round
    (sys_clk_freq lfps_clk_freq : float) (p : LFPSTransmitter.t) :
  valid sys_clk_freq = true -> is_finite sys_clk_freq = true ->
  sign sys_clk_freq = false ->
  LFPSTransmitter.init sys_clk_freq lfps_clk_freq = Ok p ->
  exists b r,
    ns_to_cycles sys_clk_freq (dec 10 7) = Ok b /\
    ns_to_cycles sys_clk_freq (dec 100 7) = Ok r /\
    0 <= b /\ 0 <= r /\
    idle_pattern p b (r + 1).
Proof.
  intros Hv Hf Hs Hp.
  destruct (tx_cycles_nonneg _ _ _ Hv Hf Hs Hp)
    as (q & n & b & r & _ & _ & Eb & Er & Hb & Hr & _ & Tb & Tr).
  exists b, r. repeat split; try assumption.
  now apply idle_closed.
Qed.

Lemma tx_idle_round_witness :
  exists b r,
    ns_to_cycles (of_Z 125000000) (dec 10 7) = Ok b /\
    ns_to_cycles (of_Z 125000000) (dec 100 7) = Ok r /\
    0 <= b /\ 0 <= r /\
    idle_pattern tx_125MHz b (r + 1).
Proof.
  apply (tx_idle_round (of_Z 125000000) (of_Z 25000000) tx_125MHz);
    vm_compute; reflexivity.
Defined.

(** X11: the generator's timers never wrap.  For a constructed
    [LFPSTransmitter] with a finite, positive system clock and an oscillator
    period [N = ceil(sys_clk_freq / (2 * lfps_clk_freq)) >= 1], on every
    tick the oscillator counter is in [0 .. N - 1], the burst counter in
    [0 .. burst_cycles] and the repeat counter in [0 .. repeat_cycles], and
    each of them fits its signal. *)
Theorem tx_counters_in_range
    (sys_clk_freq lfps_clk_freq q : float) (N : Z) (p : LFPSTransmitter.t) :
  valid sys_clk_freq = true -> is_finite sys_clk_freq = true ->
  sign sys_clk_freq = false ->
  LFPSTransmitter.init sys_clk_freq lfps_clk_freq = Ok p ->
  fdiv sys_clk_freq (fmul (of_Z 2) lfps_clk_freq) = Ok q ->
  ceil q = Ok N ->
  1 <= N ->
  exists b r,
    ns_to_cycles sys_clk_freq (dec 10 7) = Ok b /\
    ns_to_cycles sys_clk_freq (dec 100 7) = Ok r /\
    forall n,
      let s := LFPSTransmitter.at_tick p n in
      0 <= LFPSTransmitter.clk_count s <= N - 1 /\
      0 <= LFPSTransmitter.burst_count s <= b /\
      0 <= LFPSTransmitter.repeat_count s <= r /\
      LFPSTransmitter.clk_count s < 2 ^ wt_bits (LFPSTransmitter.clk_timer p) /\
      LFPSTransmitter.burst_count s < 2 ^ wt_bits (LFPSTransmitter.burst_timer p) /\
      LFPSTransmitter.repeat_count s < 2 ^ wt_bits (LFPSTransmitter.repeat_timer p).
Proof.
  intros Hv Hf Hs Hp Hq HN H1.
  destruct (tx_cycles_nonneg _ _ _ Hv Hf Hs Hp)
    as (q' & n' & b & r & Eq & En & Eb & Er & Hb & Hr & Tc & Tb & Tr).
  rewrite Hq in Eq. apply Ok_inj in Eq. subst q'.
  rewrite HN in En. apply Ok_inj in En. subst n'.
  exists b, r. split; [exact Eb|]. split; [exact Er|]. intros n s. subst s.
  destruct (osc_closed p N n H1 Tc) as [_ Ec].
  destruct (gate_closed p b r n Hb Hr Tb Tr) as [Gb Gr].
  pose proof (Z.mod_pos_bound (Z.of_nat n) N ltac:(lia)).
  pose proof (Z.mod_pos_bound (Z.of_nat n) (r + 1) ltac:(lia)).
  rewrite Ec, Gb, Gr, Tc, Tb, Tr. cbn [wt_bits WaitTimer_init].
  pose proof (bits_for_bound (N - 1) ltac:(lia)).
  pose proof (bits_for_bound b Hb).
  pose proof (bits_for_bound r Hr).
  repeat split; lia.
Qed.

Lemma tx_counters_in_range_witness :
  exists b r,
    ns_to_cycles (of_Z 125000000) (dec 10 7) = Ok b /\
    ns_to_cycles (of_Z 125000000) (dec 100 7) = Ok r /\
    forall n,
      let s := LFPSTransmitter.at_tick tx_125MHz n in
      0 <= LFPSTransmitter.clk_count s <= 3 - 1 /\
      0 <= LFPSTransmitter.burst_count s <= b /\
      0 <= LFPSTransmitter.repeat_count s <= r /\
      LFPSTransmitter.clk_count s < 2 ^ wt_bits (LFPSTransmitter.clk_timer tx_125MHz) /\
      LFPSTransmitter.burst_count s < 2 ^ wt_bits (LFPSTransmitter.burst_timer tx_125MHz) /\
      LFPSTransmitter.repeat_count s < 2 ^ wt_bits (LFPSTransmitter.repeat_timer tx_125MHz).
Proof.
  apply (tx_counters_in_range (of_Z 125000000) (of_Z 25000000)
           (S754_finite false 5629499534213120 (-51)) 3 tx_125MHz);
    vm_compute; (reflexivity || discriminate).
Defined.

Lemma pattern_bits (s : LFPSTransmitter.regs) (i : Z) :
  Z.testbit (LFPSTransmitter.pattern s) i =
  (0 <=? i) && (i <? 40) && LFPSTransmitter.clk s.
Proof.
  unfold LFPSTransmitter.pattern. destruct (LFPSTransmitter.clk s).
  - rewrite andb_true_r. replace (2 ^ 40 - 1) with (Z.ones 40) by reflexivity.
    destruct (Z.leb_spec 0 i) as [Hi|Hi].
    + rewrite Z.testbit_ones_nonneg by lia. cbn [andb].
      destruct (Z.ltb_spec i 40); reflexivity.
    + now rewrite Z.testbit_neg_r by lia.
  - rewrite andb_false_r. apply Z.testbit_0_l.
Qed.

(** X12: the pattern bus is not gated.  For a constructed [LFPSTransmitter]
    with oscillator period [N >= 1], on every tick the 40-bit [pattern] is
    all ones or all zeros according to the oscillator bit alone (bit [i] is
    the oscillator bit for [0 <= i < 40], no bit is set above): it keeps
    toggling every [N] ticks whether [idle] is asserted or not. *)
Theorem tx_pattern_not_gated
    (sys_clk_freq lfps_clk_freq q : float) (N : Z) (p : LFPSTransmitter.t) :
  LFPSTransmitter.init sys_clk_freq lfps_clk_freq = Ok p ->
  fdiv sys_clk_freq (fmul (of_Z 2) lfps_clk_freq) = Ok q ->
  ceil q = Ok N ->
  1 <= N ->
  forall n,
    LFPSTransmitter.pattern (LFPSTransmitter.at_tick p n) =
      (if Z.odd (Z.of_nat n / N) then 2 ^ 40 - 1 else 0) /\
    forall i, Z.testbit (LFPSTransmitter.pattern (LFPSTransmitter.at_tick p n)) i =
              (0 <=? i) && (i <? 40) && Z.odd (Z.of_nat n / N).
Proof.
  intros Hp Hq HN H1 n.
  destruct (tx_init_inv _ _ _ Hp) as (_ & _ & q' & n' & b & r & Hq' & Hn' & _ & _ & ->).
  rewrite Hq in Hq'. apply Ok_inj in Hq'. subst q'.
  rewrite HN in Hn'. apply Ok_inj in Hn'. subst n'.
  match goal with |- context [LFPSTransmitter.at_tick ?t n] => set (tx := t) end.
  destruct (osc_closed tx N n H1 eq_refl) as [Ec _].
  split.
  - unfold LFPSTransmitter.pattern. now rewrite Ec.
  - intros i. now rewrite pattern_bits, Ec.
Qed.

Lemma tx_pattern_not_gated_witness :
  LFPSTransmitter.pattern (LFPSTransmitter.at_tick tx_125MHz 4) =
    (if Z.odd (Z.of_nat 4 / 3) then 2 ^ 40 - 1 else 0) /\
  forall i, Z.testbit (LFPSTransmitter.pattern (LFPSTransmitter.at_tick tx_125MHz 4)) i =
            (0 <=? i) && (i <? 40) && Z.odd (Z.of_nat 4 / 3).
Proof.
  apply (tx_pattern_not_gated (of_Z 125000000) (of_Z 25000000)
           (S754_finite false 5629499534213120 (-51)) 3 tx_125MHz);
    vm_compute; (reflexivity || discriminate).
Defined.

(* ------------------------------------------------------------------ *)
(** * The accepted LFPS clock frequencies *)

Lemma compare_cont_le (a b : positive) :
  match Pos.compare_cont Eq a b with Gt => false | _ => true end = true <->
  Zpos a <= Zpos b.
Proof.
  change (Pos.compare_cont Eq a b) with (Pos.compare a b).
  destruct (Pos.compare_spec a b) as [E|E|E].
  - subst. split; [lia|reflexivity].
  - apply Pos2Z.pos_lt_pos in E. split; [lia|reflexivity].
  - apply Pos2Z.pos_lt_pos in E. split; [intros H; discriminate H|lia].
Qed.

Lemma in_range_finite (m : positive) (e : Z) :
  in_range (S754_finite false m e) = true <->
  -29 <= e <= -27 /\
  (e = -29 -> 5368709120000000 <= Zpos m) /\
  (e = -27 -> Zpos m <= 6710886400000000).
Proof.
  unfold in_range, fge, fle.
  rewrite lfps_clk_freq_min_value, lfps_clk_freq_max_value.
  unfold SFleb, SFcompare. rewrite andb_true_iff.
  destruct (Z.compare_spec (-29) e) as [E1|E1|E1];
    destruct (Z.compare_spec e (-27)) as [E2|E2|E2];
    rewrite ?compare_cont_le;
    intuition (lia || discriminate || idtac).
Qed.

(** X13: the LFPS clock frequencies the generator accepts, exactly.  The
    two assertions of [LFPSTransmitter] hold for a float [f] if and only if
    [f] is a positive finite float [m * 2^e] whose value lies between 10 MHz
    and 50 MHz, bounds included (written on integers:
    [10^7 * 2^(-e) <= m <= 5 * 10^7 * 2^(-e)] with [e < 0]): the two
    quotients [1/100e-9] and [1/20e-9] are exactly 10^7 and 5 * 10^7, and
    zeros, negative numbers, infinities and NaN are all rejected. *)
Theorem in_range_exact (f : float) :
  valid f = true ->
  (in_range f = true <->
   exists m e, f = S754_finite false m e /\ e < 0 /\
               10000000 * 2 ^ (- e) <= Zpos m <= 50000000 * 2 ^ (- e)).
Proof.
  intros Hv. split.
  - intros H.
    assert (fge f lfps_clk_freq_min = true /\ fle f lfps_clk_freq_max = true) as [H1 H2]
      by (apply andb_true_iff; exact H).
    destruct (in_range_shape f Hv H1 H2) as (m & e & -> & Hd & He).
    exists m, e. split; [reflexivity|]. split; [lia|].
    apply in_range_finite in H. clear H1 H2 Hv.
    pose proof (Zdigits2_ge_pow2 (Zpos m) 53 ltac:(lia) ltac:(lia)) as L.
    pose proof (Zdigits2_lt_pow2 (Zpos m) 53 ltac:(lia) ltac:(lia) ltac:(lia)) as U.
    change (2 ^ (53 - 1)) with 4503599627370496 in L.
    change (2 ^ 53) with 9007199254740992 in U.
    assert (e = -29 \/ e = -28 \/ e = -27) as [E|[E|E]] by lia; subst e.
    + change (2 ^ (- (-29))) with 536870912. lia.
    + change (2 ^ (- (-28))) with 268435456. lia.
    + change (2 ^ (- (-27))) with 134217728. lia.
  - intros (m & e & -> & He & L & U).
    destruct (valid_finite_bounds false m e Hv) as (Hd & Hb & Hn).
    pose proof (Zdigits2_lt_pow2 (Zpos m) 53 ltac:(lia) ltac:(lia) Hd) as U53.
    change (2 ^ 53) with 9007199254740992 in U53.
    assert (- e <= 29) as He1.
    { destruct (Z.le_gt_cases (- e) 29); [assumption|].
      assert (2 ^ 30 <= 2 ^ (- e)) by (apply Z.pow_le_mono_r; lia).
      change (2 ^ 30) with 1073741824 in *. lia. }
    assert (Zdigits2 (Zpos m) = 53) as Hd53 by lia.
    pose proof (Zdigits2_ge_pow2 (Zpos m) 53 ltac:(lia) ltac:(lia)) as L52.
    change (2 ^ (53 - 1)) with 4503599627370496 in L52.
    assert (27 <= - e) as He2.
    { destruct (Z.le_gt_cases 27 (- e)); [assumption|].
      assert (2 ^ (- e) <= 2 ^ 26) by (apply Z.pow_le_mono_r; lia).
      change (2 ^ 26) with 67108864 in *. lia. }
    apply in_range_finite. clear Hv.
    assert (e = -29 \/ e = -28 \/ e = -27) as [E|[E|E]] by lia; subst e.
    + change (2 ^ (- (-29))) with 536870912 in *. lia.
    + lia.
    + change (2 ^ (- (-27))) with 134217728 in *. lia.
Qed.

Lemma in_range_exact_witness :
  in_range (of_Z 25000000) = true <->
  exists m e, of_Z 25000000 = S754_finite false m e /\ e < 0 /\
              10000000 * 2 ^ (- e) <= Zpos m <= 50000000 * 2 ^ (- e).
Proof.
  apply (in_range_exact (of_Z 25000000)). vm_compute. reflexivity.
Defined.

(* ------------------------------------------------------------------ *)
(** * Clock frequencies that are not finite *)

Lemma tx_init_nonfinite (sys_clk_freq lfps_clk_freq : float) :
  valid lfps_clk_freq = true -> in_range lfps_clk_freq = true ->
  is_finite sys_clk_freq = false ->
  LFPSTransmitter.init sys_clk_freq lfps_clk_freq =
  Raise (match sys_clk_freq with S754_nan => ValueError | _ => OverflowError end).
Proof.
  unfold in_range. intros Hvf H Hf. apply andb_true_iff in H as [Hmin Hmax].
  destruct (two_f_shape lfps_clk_freq Hvf Hmin Hmax) as (my & ey & Ey & _).
  unfold LFPSTransmitter.init. rewrite Hmin, Hmax. cbn [assert Py.bind].
  unfold fdiv. rewrite Ey. cbn [is_zero].
  destruct sys_clk_freq as [s|s| |s m e]; try discriminate Hf; reflexivity.
Qed.

(** X14: a clock frequency that is not finite.  An infinite
    [sys_clk_freq] makes both constructors fail with [OverflowError] and a
    NaN with [ValueError], both raised by [ceil]: in [LFPSReceiver] by the
    first conversion, in [LFPSTransmitter] (once the LFPS clock frequency
    has passed the two assertions) by the oscillator period. *)
Theorem nonfinite_clock_errors :
  (forall s, LFPSReceiver.init (S754_infinity s) = Raise OverflowError) /\
  LFPSReceiver.init S754_nan = Raise ValueError /\
  forall lfps_clk_freq,
    valid lfps_clk_freq = true -> in_range lfps_clk_freq = true ->
    (forall s, LFPSTransmitter.init (S754_infinity s) lfps_clk_freq = Raise OverflowError) /\
    LFPSTransmitter.init S754_nan lfps_clk_freq = Raise ValueError.
Proof.
  split; [intros []; vm_compute; reflexivity|].
  split; [vm_compute; reflexivity|].
  intros f Hv Hr. split.
  - intros s. now rewrite (tx_init_nonfinite (S754_infinity s) f Hv Hr eq_refl).
  - now rewrite (tx_init_nonfinite S754_nan f Hv Hr eq_refl).
Qed.

Lemma nonfinite_clock_errors_witness :
  (forall s, LFPSTransmitter.init (S754_infinity s) (of_Z 25000000) = Raise OverflowError) /\
  LFPSTransmitter.init S754_nan (of_Z 25000000) = Raise ValueError.
Proof.
  apply nonfinite_clock_errors; vm_compute; reflexivity.
Defined.

(* ------------------------------------------------------------------ *)
(** * The generator wired to the detector *)

Section LinkRounds.

Import LFPSReceiver.

Variable p : LFPSReceiver.t.
Variables b r : Z.
Hypothesis Hp : of_cycles b r = Ok p.
Hypothesis Hb : 4 <= b.
Hypothesis Hr : 2 * b <= r + 1.

Lemma two_cycles_locked :
  cycle b (r + 1) ++ cycle b (r + 1) =
  [false] ++ List.repeat false (Z.to_nat (b - 2)) ++ [false]
  ++ List.repeat true (Z.to_nat (b - 1))
  ++ (List.repeat true (Z.to_nat (r + 2 - 2 * b)) ++ [false])
  ++ (List.repeat false (Z.to_nat (b - 1)) ++ List.repeat true (Z.to_nat (r - b)))
  ++ [true].
Proof.
  unfold cycle.
  replace (Z.to_nat b) with (1 + Z.to_nat (b - 2) + 1)%nat at 1 by lia.
  replace (Z.to_nat b) with (1 + Z.to_nat (b - 1))%nat at 1 by lia.
  replace (Z.to_nat (r + 1 - b))
    with (Z.to_nat (b - 1) + Z.to_nat (r + 2 - 2 * b))%nat at 1 by lia.
  replace (Z.to_nat (r + 1 - b)) with (Z.to_nat (r - b) + 1)%nat by lia.
  rewrite !repeat_app. cbn [List.repeat]. rewrite <- !app_assoc. reflexivity.
Qed.

Lemma run_burst_skip (c : Z) (l : list bool) :
  0 <= c < r -> Z.of_nat (length l) = c ->
  run p {| state := TBURST; count := c; found := false |} l =
  (List.repeat false (length l), {| state := TBURST; count := 0; found := false |}).
Proof.
  intros Hc Hl. subst c.
  apply run_burst_countdown with (b := b) (r := r); try assumption; lia.
Qed.

Lemma run_locked_rounds :
  run p {| state := TBURST; count := b - 1; found := true |}
        (cycle b (r + 1) ++ cycle b (r + 1)) =
  (locked_rounds_out r, {| state := TBURST; count := b - 1; found := true |}).
Proof.
  rewrite two_cycles_locked.
  cbn [app run].
  rewrite tick_burst_count with (b := b) (r := r) by (try assumption; lia).
  cbn [andb negb]. rewrite run_app.
  rewrite run_burst_skip by (rewrite ?repeat_length; lia).
  cbn [app run].
  rewrite tick_burst_reload with (b := b) (r := r) by (try assumption; lia).
  rewrite run_app.
  rewrite run_burst_skip by (rewrite ?repeat_length; lia).
  rewrite !repeat_length.
  rewrite run_app.
  rewrite run_early_reburst with (b := b) (r := r) by (try assumption; lia).
  rewrite run_app.
  rewrite run_rearm with (b := b) (r := r) by (try assumption; lia).
  cbn [run].
  rewrite tick_repeat_done with (b := b) (r := r) by (try assumption; lia).
  unfold polling, locked_rounds_out. cbn [state found andb negb].
  f_equal. f_equal.
  change (false :: List.repeat false (Z.to_nat (b - 1)) ++
          List.repeat false (S (Z.to_nat (r + 2 - 2 * b))) ++
          List.repeat false (Z.to_nat (r - 1)) ++ [false])
    with (List.repeat false 1 ++ List.repeat false (Z.to_nat (b - 1)) ++
          List.repeat false (S (Z.to_nat (r + 2 - 2 * b))) ++
          List.repeat false (Z.to_nat (r - 1)) ++ List.repeat false 1).
  rewrite <- !repeat_app. f_equal. lia.
Qed.

Lemma two_cycles_startup :
  false :: false :: cycle b (r + 1) ++ cycle b (r + 1) =
  [false] ++ List.repeat false (Z.to_nat (b - 1)) ++ [false]
  ++ (false :: List.repeat true (Z.to_nat (b - 2)))
  ++ (List.repeat true (Z.to_nat (r + 3 - 2 * b)) ++ [false])
  ++ (List.repeat false (Z.to_nat (b - 1)) ++ List.repeat true (Z.to_nat (r - b)))
  ++ [true].
Proof.
  assert (false :: false :: List.repeat false (Z.to_nat b) =
          List.repeat false 1 ++ List.repeat false (Z.to_nat (b - 1))
          ++ List.repeat false 1 ++ List.repeat false 1) as E.
  { rewrite <- !repeat_app.
    change (false :: false :: List.repeat false (Z.to_nat b))
      with (List.repeat false (S (S (Z.to_nat b)))).
    f_equal. lia. }
  unfold cycle at 1.
  change (false :: false ::
          (List.repeat false (Z.to_nat b) ++ List.repeat true (Z.to_nat (r + 1 - b)))
          ++ cycle b (r + 1))
    with (((false :: false :: List.repeat false (Z.to_nat b))
           ++ List.repeat true (Z.to_nat (r + 1 - b))) ++ cycle b (r + 1)).
  rewrite E. unfold cycle.
  replace (Z.to_nat b) with (1 + Z.to_nat (b - 1))%nat by lia.
  replace (Z.to_nat (r + 1 - b))
    with (Z.to_nat (b - 2) + Z.to_nat (r + 3 - 2 * b))%nat at 1 by lia.
  replace (Z.to_nat (r + 1 - b)) with (Z.to_nat (r - b) + 1)%nat by lia.
  rewrite !repeat_app. cbn [List.repeat app]. rewrite <- !app_assoc.
  reflexivity.
Qed.

Lemma run_startup_rounds :
  run p reset (false :: false :: cycle b (r + 1) ++ cycle b (r + 1)) =
  (List.repeat false (Z.to_nat (2 * r + 4)),
   {| state := TBURST; count := b - 1; found := true |}).
Proof.
  rewrite two_cycles_startup. unfold reset.
  cbn [app run].
  rewrite tick_burst_reload with (b := b) (r := r) by (try assumption; lia).
  rewrite run_app.
  rewrite run_burst_skip by (rewrite ?repeat_length; lia).
  cbn [app run].
  rewrite tick_burst_reload with (b := b) (r := r) by (try assumption; lia).
  rewrite tick_burst_count with (b := b) (r := r) by (try assumption; lia).
  cbn [andb negb].
  rewrite run_app.
  rewrite run_burst_skip by (rewrite ?repeat_length; lia).
  rewrite !repeat_length.
  rewrite run_app.
  rewrite run_early_reburst with (b := b) (r := r) by (try assumption; lia).
  rewrite run_app.
  rewrite run_rearm with (b := b) (r := r) by (try assumption; lia).
  cbn [run].
  rewrite tick_repeat_done with (b := b) (r := r) by (try assumption; lia).
  unfold polling. cbn [state found andb negb].
  f_equal.
  change (false :: List.repeat false (Z.to_nat (b - 1)) ++
          false :: false :: List.repeat false (Z.to_nat (b - 2)) ++
          List.repeat false (S (Z.to_nat (r + 3 - 2 * b))) ++
          List.repeat false (Z.to_nat (r - 1)) ++ [false])
    with (List.repeat false 1 ++ List.repeat false (Z.to_nat (b - 1)) ++
          List.repeat false 2 ++ List.repeat false (Z.to_nat (b - 2)) ++
          List.repeat false (S (Z.to_nat (r + 3 - 2 * b))) ++
          List.repeat false (Z.to_nat (r - 1)) ++ List.repeat false 1).
  rewrite <- !repeat_app. f_equal. lia.
Qed.

Lemma run_locked_cadence (k : nat) :
  run p {| state := TBURST; count := b - 1; found := true |}
        (cadence b (r + 1) (2 * k)) =
  (concat (List.repeat (locked_rounds_out r) k),
   {| state := TBURST; count := b - 1; found := true |}).
Proof.
  induction k as [|k IH]; [reflexivity|].
  replace (2 * S k)%nat with (S (S (2 * k))) by lia.
  unfold cadence. cbn [List.repeat concat].
  rewrite app_assoc, run_app, run_locked_rounds.
  fold (cadence b (r + 1) (2 * k)). rewrite IH. reflexivity.
Qed.

Lemma run_link_input (k : nat) :
  run p reset (false :: false :: cadence b (r + 1) (2 * S k)) =
  (List.repeat false (Z.to_nat (2 * r + 4))
   ++ concat (List.repeat (locked_rounds_out r) k),
   {| state := TBURST; count := b - 1; found := true |}).
Proof.
  replace (2 * S k)%nat with (S (S (2 * k))) by lia.
  unfold cadence. cbn [List.repeat concat].
  fold (cadence b (r + 1) (2 * k)).
  change (false :: false :: cycle b (r + 1) ++ cycle b (r + 1) ++ cadence b (r + 1) (2 * k))
    with ((false :: false :: cycle b (r + 1)) ++ cycle b (r + 1) ++ cadence b (r + 1) (2 * k)).
  rewrite app_assoc, run_app.
  change ((false :: false :: cycle b (r + 1)) ++ cycle b (r + 1))
    with (false :: false :: cycle b (r + 1) ++ cycle b (r + 1)).
  rewrite run_startup_rounds, run_locked_cadence. reflexivity.
Qed.

End LinkRounds.

Lemma link_run_raw (pt : LFPSTransmitter.t) (pr : LFPSReceiver.t) (n : nat) :
  forall s,
    link_run pt pr n s =
    run_raw pr (link_sync s) (link_rx s) (idles_from pt (link_tx s) n).
Proof.
  induction n as [|n IH]; intros s; [reflexivity|].
  cbn [link_run idles_from run_raw]. rewrite IH. reflexivity.
Qed.

Lemma idles_from_length (pt : LFPSTransmitter.t) (n : nat) :
  forall s, length (idles_from pt s n) = n.
Proof.
  induction n as [|n IH]; intros s; [reflexivity|].
  cbn [idles_from length]. now rewrite IH.
Qed.

Lemma idles_from_firstn (pt : LFPSTransmitter.t) (n k : nat) :
  forall s, firstn n (idles_from pt s (n + k)) = idles_from pt s n.
Proof.
  induction n as [|n IH]; intros s; [reflexivity|].
  cbn [Nat.add idles_from firstn]. now rewrite IH.
Qed.

Lemma idles_from_at_tick (pt : LFPSTransmitter.t) (n : nat) :
  forall k,
    idles_from pt (LFPSTransmitter.at_tick pt k) n =
    map (fun i => LFPSTransmitter.idle (LFPSTransmitter.at_tick pt i)) (seq k n).
Proof.
  induction n as [|n IH]; intros k; [reflexivity|].
  cbn [idles_from seq map]. f_equal. apply (IH (S k)).
Qed.

Lemma map_seq_const {A : Type} (f : nat -> A) (v : A) (n : nat) :
  forall s, (forall i, (s <= i < s + n)%nat -> f i = v) ->
            map f (seq s n) = List.repeat v n.
Proof.
  induction n as [|n IH]; intros s H; [reflexivity|].
  cbn [seq map List.repeat]. f_equal.
  - apply H. lia.
  - apply IH. intros i Hi. apply H. lia.
Qed.

Lemma idle_round (pt : LFPSTransmitter.t) (b T : Z) (j : nat) :
  0 <= b <= T -> 0 < T -> idle_pattern pt b T ->
  map (fun i => LFPSTransmitter.idle (LFPSTransmitter.at_tick pt i))
      (seq (j * Z.to_nat T) (Z.to_nat T)) = cycle b T.
Proof.
  intros Hb HT Hi. unfold cycle.
  replace (Z.to_nat T) with (Z.to_nat b + Z.to_nat (T - b))%nat at 2 by lia.
  rewrite seq_app, map_app.
  assert (forall i x, 0 <= x < T -> Z.of_nat i = x + Z.of_nat j * T ->
                      Z.of_nat i mod T = x) as M.
  { intros i x Hx ->. rewrite Z_mod_plus_full. now apply Z.mod_small. }
  f_equal.
  - apply map_seq_const. intros i Hlt. rewrite Hi.
    rewrite (M i (Z.of_nat i - Z.of_nat j * T)) by nia.
    apply Z.leb_gt. nia.
  - apply map_seq_const. intros i Hlt. rewrite Hi.
    rewrite (M i (Z.of_nat i - Z.of_nat j * T)) by nia.
    apply Z.leb_le. nia.
Qed.

Lemma idle_rounds (pt : LFPSTransmitter.t) (b T : Z) (m : nat) :
  0 <= b <= T -> 0 < T -> idle_pattern pt b T ->
  forall j,
    map (fun i => LFPSTransmitter.idle (LFPSTransmitter.at_tick pt i))
        (seq (j * Z.to_nat T) (m * Z.to_nat T)) = cadence b T m.
Proof.
  intros Hb HT Hi. induction m as [|m IH]; intros j; [reflexivity|].
  cbn [Nat.mul]. rewrite seq_app, map_app, idle_round with (b := b) by assumption.
  replace (j * Z.to_nat T + Z.to_nat T)%nat with (S j * Z.to_nat T)%nat by lia.
  rewrite IH. reflexivity.
Qed.

Lemma link_run_rounds
    (pt : LFPSTransmitter.t) (pr : LFPSReceiver.t) (b r : Z) (k : nat) :
  LFPSReceiver.of_cycles b r = Ok pr ->
  idle_pattern pt b (r + 1) ->
  4 <= b -> 2 * b <= r + 1 ->
  link_run pt pr (2 * S k * Z.to_nat (r + 1) + 2) (link_reset pt) =
  List.repeat false (Z.to_nat (2 * r + 4))
  ++ concat (List.repeat (locked_rounds_out r) k).
Proof.
  intros Hp Hi Hb Hr.
  rewrite link_run_raw. unfold link_reset. cbn [link_sync link_rx link_tx].
  rewrite run_raw_resync. unfold resync, MultiReg_reset. cbn [regs0 regs1].
  rewrite idles_from_length.
  replace (2 * S k * Z.to_nat (r + 1) + 2)%nat
    with (S (S (2 * S k * Z.to_nat (r + 1)))) at 1 by lia.
  cbn [firstn]. rewrite idles_from_firstn.
  change (LFPSTransmitter.reset pt) with (LFPSTransmitter.at_tick pt 0).
  rewrite idles_from_at_tick.
  change 0%nat with (0 * Z.to_nat (r + 1))%nat at 1.
  rewrite idle_rounds with (b := b) by (try assumption; lia).
  rewrite run_link_input with (b := b) (r := r) by assumption.
  reflexivity.
Qed.

Lemma pulse_ticks_app (l1 l2 : list bool) :
  forall i,
    pulse_ticks i (l1 ++ l2) =
    pulse_ticks i l1 ++ pulse_ticks (i + Z.of_nat (length l1)) l2.
Proof.
  induction l1 as [|x l1 IH]; intros i.
  - cbn [app pulse_ticks length]. now rewrite Z.add_0_r.
  - cbn [app pulse_ticks length]. rewrite IH, <- app_assoc.
    replace (i + 1 + Z.of_nat (length l1)) with (i + Z.of_nat (S (length l1))) by lia.
    reflexivity.
Qed.

Lemma pulse_ticks_repeat_false (n : nat) :
  forall i, pulse_ticks i (List.repeat false n) = [].
Proof.
  induction n as [|n IH]; intros i; [reflexivity|].
  cbn [List.repeat pulse_ticks app]. apply IH.
Qed.

Lemma locked_train_ticks (r : Z) (k : nat) :
  0 <= r ->
  forall i,
    pulse_ticks i (concat (List.repeat (locked_rounds_out r) k)) =
    map (fun j => i + Z.of_nat j * (2 * r + 2)) (seq 0 k).
Proof.
  intros Hr. induction k as [|k IH]; intros i; [reflexivity|].
  cbn [List.repeat concat seq map]. rewrite pulse_ticks_app.
  unfold locked_rounds_out at 1 2. cbn [pulse_ticks length app].
  rewrite pulse_ticks_repeat_false, repeat_length, IH. cbn [app].
  f_equal; [lia|].
  rewrite <- seq_shift, map_map. apply map_ext. intros j. lia.
Qed.

Lemma of_Z_2_22 : of_Z 4194304 = S754_finite false 4503599627370496 (-30).
Proof. vm_compute. reflexivity. Qed.

(** At 2^22 Hz and above the burst count is at least 4 and the repeat count
    at least twice the burst count. *)
Lemma polling_cycles_ratio (m : positive) (e b r : Z) :
  valid (S754_finite false m e) = true ->
  ns_to_cycles (S754_finite false m e) (dec 10 7) = Ok b ->
  ns_to_cycles (S754_finite false m e) (dec 100 7) = Ok r ->
  23 <= Zdigits2 (Zpos m) + e ->
  4 <= b /\ 2 * b <= r.
Proof.
  intros Hv Eb Er HM.
  rewrite burst_t_typ_value in Eb. rewrite repeat_t_typ_value in Er.
  unfold ns_to_cycles in Eb, Er.
  destruct (valid_finite_bounds false m e Hv) as (Hd & Hb & _).
  set (M := Zdigits2 (Zpos m) + e) in *.
  destruct (product_normal 4722366482869645 m (-72) e eq_refl ltac:(lia) Hv ltac:(fold M; lia))
    as (m6 & e6 & E6 & L6 & U6).
  destruct (product_normal 5902958103587057 m (-69) e eq_refl ltac:(lia) Hv ltac:(fold M; lia))
    as (m5 & e5 & E5 & L5 & U5).
  fold M in L6, U6, L5, U5. rewrite E6 in Eb. rewrite E5 in Er.
  pose proof (ceil_le_pow2 m6 e6 b (M - 19) Eb ltac:(lia)) as Ub.
  pose proof (ceil_ge_pow2 m6 e6 b (M - 21) Eb ltac:(lia)) as Lb.
  pose proof (ceil_ge_pow2 m5 e5 r (M - 18) Er ltac:(lia)) as Lr.
  replace (M + 53 + -72 - e6) with (M - 19 - e6) in U6 by lia.
  replace (M + 51 + -72 - e6) with (M - 21 - e6) in L6 by lia.
  replace (M + 51 + -69 - e5) with (M - 18 - e5) in L5 by lia.
  specialize (Ub U6). specialize (Lb L6). specialize (Lr L5).
  replace (M - 18) with (Z.succ (M - 19)) in Lr by lia.
  rewrite Z.pow_succ_r in Lr by lia.
  assert (2 ^ 2 <= 2 ^ (M - 21)) as H4 by (apply Z.pow_le_mono_r; lia).
  change (2 ^ 2) with 4 in H4. lia.
Qed.

(** X15: the generator wired to the detector, for every clock.  For a
    finite [sys_clk_freq] of at least 4194304 Hz (2^22) for which both are
    constructed, the detector fed by the generator's [idle] through its
    synchroniser gives its first pulse on tick [2 * repeat_cycles + 4] and
    then one pulse every [2 * repeat_cycles + 2] ticks: one pulse per two
    rounds of the generator, a round lasting [repeat_cycles + 1] ticks. *)
Theorem link_pulse_every_two_rounds
    (sys_clk_freq lfps_clk_freq : float)
    (pt : LFPSTransmitter.t) (pr : LFPSReceiver.t) (k : nat) :
  valid sys_clk_freq = true -> is_finite sys_clk_freq = true ->
  fle (of_Z 4194304) sys_clk_freq = true ->
  LFPSTransmitter.init sys_clk_freq lfps_clk_freq = Ok pt ->
  LFPSReceiver.init sys_clk_freq = Ok pr ->
  let r := LFPSReceiver.repeat_cycles pr in
  let out := link_run pt pr (2 * S k * Z.to_nat (r + 1) + 2) (link_reset pt) in
  out = List.repeat false (Z.to_nat (2 * r + 4))
        ++ concat (List.repeat (locked_rounds_out r) k) /\
  pulse_ticks 0 out = map (fun j => 2 * r + 4 + Z.of_nat j * (2 * r + 2)) (seq 0 k).
Proof.
  intros Hv Hf Hle Ht Hr r out.
  destruct (rx_init_inv _ _ Hr) as (Eb & Er & Hc).
  set (b := LFPSReceiver.burst_cycles pr) in *. fold r in Er, Hc.
  rewrite of_Z_2_22 in Hle.
  destruct (positive_magnitude_ge sys_clk_freq 4503599627370496 (-30)
              Hv Hf eq_refl ltac:(lia) Hle) as (m & e & -> & HM).
  destruct (polling_cycles_ratio m e b r Hv Eb Er ltac:(lia)) as [Hb4 Hbr].
  assert (idle_pattern pt b (r + 1)) as Hi.
  { apply (tx_init_idle_pattern (S754_finite false m e) lfps_clk_freq);
      try assumption; lia. }
  assert (out = List.repeat false (Z.to_nat (2 * r + 4))
                ++ concat (List.repeat (locked_rounds_out r) k)) as E.
  { subst out. apply link_run_rounds with (b := b); try assumption; lia. }
  split; [exact E|].
  rewrite E, pulse_ticks_app, pulse_ticks_repeat_false, repeat_length.
  cbn [app]. rewrite locked_train_ticks by lia.
  apply map_ext. intros j. lia.
Qed.

Lemma link_pulse_every_two_rounds_witness :
  let r := LFPSReceiver.repeat_cycles rx_125MHz in
  let out := link_run tx_125MHz rx_125MHz (2 * 4 * Z.to_nat (r + 1) + 2)
               (link_reset tx_125MHz) in
  out = List.repeat false (Z.to_nat (2 * r + 4))
        ++ concat (List.repeat (locked_rounds_out r) 3) /\
  pulse_ticks 0 out = map (fun j => 2 * r + 4 + Z.of_nat j * (2 * r + 2)) (seq 0 3).
Proof.
  apply (link_pulse_every_two_rounds (of_Z 125000000) (of_Z 25000000)
           tx_125MHz rx_125MHz 3);
    vm_compute; reflexivity.
Defined.

(* ------------------------------------------------------------------ *)
(** * The distance between two pulses *)

Section PulseSpacing.

Import LFPSReceiver.

Variable p : LFPSReceiver.t.
Variables b r : Z.
Hypothesis Hp : of_cycles b r = Ok p.
Hypothesis Hb : 1 <= b.
Hypothesis Hbr : b < r.

Lemma fst_run_cons (s : regs) (x : bool) (l : list bool) :
  fst (run p s (x :: l)) = polling s x :: fst (run p (tick p s x) l).
Proof. cbn [run]. now destruct (run p (tick p s x) l). Qed.

Lemma ticks_to_pulse_nonneg (s : regs) :
  count_inv b r s -> 0 <= ticks_to_pulse b r s.
Proof.
  destruct s as [st c f]. unfold count_inv, ticks_to_pulse. cbn [state count found].
  destruct st; [destruct f|]; lia.
Qed.

Lemma ticks_to_pulse_polling (s : regs) (x : bool) :
  polling s x = true -> ticks_to_pulse b r s = 0.
Proof.
  destruct s as [st c f]. unfold polling, ticks_to_pulse. cbn [state count found].
  destruct st; [|intros H; discriminate H].
  destruct f; [reflexivity|intros H; discriminate H].
Qed.

Lemma ticks_to_pulse_tick (s : regs) (x : bool) :
  count_inv b r s ->
  ticks_to_pulse b r s - 1 <= ticks_to_pulse b r (tick p s x).
Proof.
  intros Hc. pose proof (ticks_to_pulse_nonneg _ (count_inv_tick p b r Hp Hb Hbr s x Hc)) as N.
  destruct (of_cycles_fields p b r Hp Hbr) as (Eb & Er & Hw).
  destruct s as [st c f]. unfold count_inv in Hc. cbn [state count] in Hc.
  unfold ticks_to_pulse in *. unfold tick in *. cbn [state count found] in *.
  rewrite Eb, Er in *.
  destruct st.
  - destruct f; [lia|]. cbn [andb] in *.
    destruct (Z.eqb_spec c 0) as [->|Hz].
    + destruct x; cbn [negb state count found] in *; rewrite trunc_small by lia; lia.
    + cbn [state count found]. rewrite trunc_small by lia. lia.
  - destruct (Z.eqb_spec c 0) as [->|Hz]; cbn [orb].
    + cbn [state count found]. lia.
    + destruct x; cbn [negb state count found].
      * rewrite trunc_small by lia. lia.
      * destruct (Z.eqb_spec c 0); [lia|]. rewrite trunc_small by lia. lia.
Qed.

Lemma ticks_to_pulse_after (s : regs) (x : bool) :
  count_inv b r s -> polling s x = true ->
  r - b + 1 <= ticks_to_pulse b r (tick p s x).
Proof.
  intros Hc Hpol.
  destruct (of_cycles_fields p b r Hp Hbr) as (Eb & Er & Hw).
  destruct s as [st c f]. unfold count_inv in Hc. cbn [state count] in Hc.
  unfold polling in Hpol. cbn [state found] in Hpol.
  destruct st; [|discriminate Hpol].
  apply andb_true_iff in Hpol as [-> Hx]. destruct x; [discriminate Hx|].
  unfold ticks_to_pulse, tick. cbn [state count found andb negb]. rewrite Eb.
  destruct (Z.eqb_spec c 0) as [->|Hz]; cbn [state count found];
    rewrite trunc_small by lia; lia.
Qed.

Lemma run_pulse_not_before (l : list bool) :
  forall s n, count_inv b r s ->
    nth n (fst (run p s l)) false = true ->
    ticks_to_pulse b r s <= Z.of_nat n.
Proof.
  induction l as [|x l IH]; intros s n Hc Hn.
  - destruct n; discriminate Hn.
  - rewrite fst_run_cons in Hn. destruct n as [|n]; cbn [nth] in Hn.
    + rewrite (ticks_to_pulse_polling s x Hn). lia.
    + pose proof (IH _ n (count_inv_tick p b r Hp Hb Hbr s x Hc) Hn).
      pose proof (ticks_to_pulse_tick s x Hc). lia.
Qed.

Lemma run_pulse_spacing (l : list bool) :
  forall s i j, count_inv b r s -> (i < j)%nat ->
    nth i (fst (run p s l)) false = true ->
    nth j (fst (run p s l)) false = true ->
    r - b + 2 <= Z.of_nat j - Z.of_nat i.
Proof.
  induction l as [|x l IH]; intros s i j Hc Hij Hi Hj.
  - destruct i; discriminate Hi.
  - rewrite fst_run_cons in Hi, Hj.
    destruct j as [|j]; [lia|]. cbn [nth] in Hj.
    pose proof (count_inv_tick p b r Hp Hb Hbr s x Hc) as Hc'.
    destruct i as [|i]; cbn [nth] in Hi.
    + pose proof (run_pulse_not_before l _ j Hc' Hj).
      pose proof (ticks_to_pulse_after s x Hc Hi). lia.
    + pose proof (IH _ i j Hc' ltac:(lia) Hi Hj). lia.
Qed.

End PulseSpacing.

Lemma count_inv_reset (b r : Z) : 1 <= b -> count_inv b r LFPSReceiver.reset.
Proof. intros H. unfold count_inv. cbn. lia. Qed.

(** X16: pulses are never close together.  For a constructed receiver and
    any input whatever after reset, no pulse comes before tick
    [repeat_cycles - burst_cycles + 1], and two pulses are at least
    [repeat_cycles - burst_cycles + 2] ticks apart. *)
Theorem pulses_far_apart
    (sys_clk_freq : float) (p : LFPSReceiver.t) (l : list bool) :
  valid sys_clk_freq = true ->
  LFPSReceiver.init sys_clk_freq = Ok p ->
  let b := LFPSReceiver.burst_cycles p in
  let r := LFPSReceiver.repeat_cycles p in
  let out := fst (LFPSReceiver.run p LFPSReceiver.reset l) in
  (forall n, nth n out false = true -> r - b + 1 <= Z.of_nat n) /\
  (forall i j, (i < j)%nat -> nth i out false = true -> nth j out false = true ->
               r - b + 2 <= Z.of_nat j - Z.of_nat i).
Proof.
  intros Hv Hi b r out.
  destruct (rx_init_cycles_order _ _ Hv Hi) as [Hb Hbr].
  destruct (rx_init_inv _ _ Hi) as (_ & _ & Hp).
  fold b r in Hb, Hbr, Hp.
  pose proof (count_inv_reset b r Hb) as Hc.
  split.
  - intros n Hn.
    apply (run_pulse_not_before p b r Hp Hb Hbr l _ n Hc) in Hn.
    unfold ticks_to_pulse in Hn. cbn in Hn. lia.
  - intros i j Hij Hpi Hpj.
    exact (run_pulse_spacing p b r Hp Hb Hbr l _ i j Hc Hij Hpi Hpj).
Qed.

Lemma pulses_far_apart_witness :
  let b := LFPSReceiver.burst_cycles rx_125MHz in
  let r := LFPSReceiver.repeat_cycles rx_125MHz in
  let out := fst (LFPSReceiver.run rx_125MHz LFPSReceiver.reset (cadence 125 1250 3)) in
  (forall n, nth n out false = true -> r - b + 1 <= Z.of_nat n) /\
  (forall i j, (i < j)%nat -> nth i out false = true -> nth j out false = true ->
               r - b + 2 <= Z.of_nat j - Z.of_nat i).
Proof.
  apply (pulses_far_apart (of_Z 125000000) rx_125MHz (cadence 125 1250 3));
    vm_compute; reflexivity.
Defined.

(* ------------------------------------------------------------------ *)
(** * The durations of the table *)

Lemma table_durations_small : forallb small_positive table_durations = true.
Proof. vm_compute. reflexivity. Qed.

(** X17: every duration of the table converts.  For a finite clock
    frequency, [ns_to_cycles] returns an integer, without an exception, for
    each of the typical, minimal and maximal durations of the table (all are
    positive and below half a second, so the product cannot overflow): 0 for
    a zero frequency, not negative for a positive one, not positive for a
    negative one. *)
Theorem table_durations_convert (clk_freq : float) :
  valid clk_freq = true -> is_finite clk_freq = true ->
  Forall (fun t =>
            exists n, ns_to_cycles clk_freq t = Ok n /\
              (is_zero clk_freq = true -> n = 0) /\
              (sign clk_freq = true -> n <= 0) /\
              (sign clk_freq = false -> 0 <= n))
         table_durations.
Proof.
  intros Hv Hf. apply Forall_forall. intros t Ht.
  pose proof table_durations_small as S.
  rewrite forallb_forall in S. specialize (S t Ht).
  destruct t as [s|s| |s mc ec]; try discriminate S.
  destruct s; [discriminate S|].
  cbn [small_positive] in S. apply andb_true_iff in S as [S1 S2].
  apply Z.leb_le in S1. apply Z.leb_le in S2.
  destruct (ns_to_cycles_small mc ec clk_freq S1 S2 Hv Hf) as (n & En & Z0 & Ng & Ps & _).
  exists n. repeat split; assumption.
Qed.

Lemma table_durations_convert_witness :
  Forall (fun t =>
            exists n, ns_to_cycles (of_Z 125000000) t = Ok n /\
              (is_zero (of_Z 125000000) = true -> n = 0) /\
              (sign (of_Z 125000000) = true -> n <= 0) /\
              (sign (of_Z 125000000) = false -> 0 <= n))
         table_durations.
Proof.
  apply (table_durations_convert (of_Z 125000000)); vm_compute; reflexivity.
Defined.

(** X18: the table as a whole.  Each timing of the table is what
    [LFPSTiming] returns for its three values (both assertions pass), has
    [range = (t_min, t_max)] and a typical value, when it has one, inside
    that range.  The bounds are in order for Polling, Ping, Reset and
    U1Exit, but [t_min > t_max] for U2 (hence LoopbackExit) and U3Wakeup
    (80 ms against 2 ms and 10 ms).  Only [PollingLFPS] has a typical burst
    and a typical repeat duration, the two values the constructors read. *)
Theorem table_ranges :
  Forall (fun l =>
            Forall (fun t =>
                      LFPSTiming_init (t_typ t) (Some (t_min t)) (Some (t_max t)) = Ok t /\
                      range t = (t_min t, t_max t) /\
                      typ_in_range t = true)
                   (timings l))
         lfps_table /\
  map (fun l => map ordered (timings l)) lfps_table =
    [[true; true]; [true; true]; [true]; [true]; [false]; [false]; [false]] /\
  map (fun l =>
         (match t_typ (burst l) with Some _ => true | None => false end,
          match repeat l with
          | Some t => match t_typ t with Some _ => true | None => false end
          | None => false
          end)) lfps_table =
    [(true, true); (false, true); (true, false); (false, false); (false, false);
     (false, false); (false, false)].
Proof.
  split; [|split; vm_compute; reflexivity].
  repeat constructor; vm_compute; reflexivity.
Qed.
